(** * result-enum: Rust-like [Result] and [Option] containers for JavaScript

    A shallow embedding of [dist/result.js], [dist/option.js] and
    [src/async.ts] together with the properties of the library's
    specification.

    The library classifies the content of a [Result] structurally
    ([instanceof Error], [Error.isPrototypeOf]), compares the content of an
    [Option] with a unique symbol, hands containers around by reference
    ([return this]) and, in [Result.partition] and in the
    [Symbol.hasInstance] hooks, calls methods found through the prototype
    chain of whatever value it is given.  The embedding therefore keeps the
    parts of the JavaScript object model those operations look at: primitive
    values, a heap of objects with a [[Prototype]] link and own data
    properties, [typeof], truthiness, strict equality, and completions that
    are either normal or abrupt (a thrown value).

    Scope of the object model: objects are ordinary objects with data
    properties (no proxies, no accessors); functions supplied by the caller
    are computations in the monad [M] below; whatever depends on the host
    (the text of numbers and objects, stack traces, functions that are not
    part of the library) is a parameter, see [Host]. *)

From stdpp Require Import base option list gmap strings.
From Stdlib Require Import ZArith.

Open Scope string_scope.
Open Scope list_scope.
Open Scope nat_scope.

(** ** Values and objects *)

(** Locations are indices into the heap. *)
Abbreviation loc := nat (only parsing).

(** Language values.  Numbers are represented by the integers and [NaN]; the
    library never computes with them, it only tests their truthiness and
    identity.  A symbol is identified by its number; an object (functions
    included) by its location in the heap. *)
Inductive value : Type :=
| VUndefined
| VNull
| VBool (b : bool)
| VNum (n : Z)
| VNaN
| VBigInt (n : Z)
| VStr (s : string)
| VSym (id : nat)
| VRef (l : loc).

#[global] Instance value_eq_dec : EqDecision value.
Proof. solve_decision. Defined.

(** What calling a function object does.  The methods of the library that
    are reached by property lookup are told apart: the four classification
    predicates, which the [Symbol.hasInstance] hooks call on their argument,
    and [unwrap] and [unwrapErr], which [Result.partition] calls on the
    elements of its input together with [isOk].  Every other function
    (constructors, user functions) is [Foreign] and run by the host. *)
Inductive code : Type :=
  IsOk | IsErr | IsSome | IsNone | Unwrap | UnwrapErr | Foreign.

#[global] Instance code_eq_dec : EqDecision code.
Proof. solve_decision. Defined.

(** An ordinary object: its [[Prototype]] ([None] is [null]), its [[Call]]
    behaviour when it is a function, and its own data properties. *)
Record object : Type := Obj {
  proto : option loc;
  call : option code;
  props : gmap string value;
}.

(** The heap is the list of all objects allocated so far; a location is an
    index into it and allocation appends. *)
Abbreviation heap := (list object) (only parsing).

(** ** Completions and the computation monad *)

(** A completion is normal (a result) or abrupt (a thrown value). *)
Inductive completion (A : Type) : Type :=
| Normal (a : A)
| Abrupt (thrown : value).
Arguments Normal {A} a.
Arguments Abrupt {A} thrown.

Definition M (A : Type) : Type := heap → completion A * heap.

#[global] Instance M_ret : MRet M := λ A a h, (Normal a, h).

#[global] Instance M_bind : MBind M := λ A B f m h,
  match m h with
  | (Normal a, h') => f a h'
  | (Abrupt v, h') => (Abrupt v, h')
  end.

(** [throw v]. *)
#[global] Instance M_throw : MThrow value M := λ A v h, (Abrupt v, h).

(** [try { body } catch (e) { handler e }]. *)
Definition try_catch {A} (body : M A) (handler : value → M A) : M A := λ h,
  match body h with
  | (Normal a, h') => (Normal a, h')
  | (Abrupt e, h') => handler e h'
  end.

(** Reading the heap without changing it. *)
Definition read {A} (f : heap → A) : M A := λ h, (Normal (f h), h).

(** Allocation of a new object; its location is the next free index. *)
Definition alloc (o : object) : M loc := λ h, (Normal (length h), h ++ [o]).

(** Assignment [target.key = v] to an own data property. *)
Definition set_prop (target : loc) (key : string) (v : value) : M unit := λ h,
  (Normal tt,
   match h !! target with
   | Some o => <[target := Obj (proto o) (call o) (<[key := v]> (props o))]> h
   | None => h
   end).

(** A promise is represented by the computation that delivers its settlement
    to whoever awaits it: a normal completion when it is fulfilled, an abrupt
    one carrying the reason when it is rejected.  Promises that never settle
    are outside the model.  The promise returned by an [async] function
    settles the way its body completes. *)
Definition promise := M value.

Definition await (p : promise) : M value := p.

Definition async_function (body : M value) : promise := body.

(** ** Operators *)

(** [ToBoolean]: [undefined], [null], [false], [0], [NaN], [0n] and the
    empty string are falsy. *)
Definition ToBoolean (v : value) : bool :=
  match v with
  | VUndefined | VNull | VNaN => false
  | VBool b => b
  | VNum n | VBigInt n => negb (n =? 0)%Z
  | VStr s => negb (String.eqb s EmptyString)
  | VSym _ | VRef _ => true
  end.

(** [a || b] and [a && b] on already evaluated operands: the result is one
    of the operands, not its truth value. *)
Definition js_or (a b : value) : value := if ToBoolean a then a else b.
Definition js_and (a b : value) : value := if ToBoolean a then b else a.

(** [a === b]. *)
Definition strict_eq (a b : value) : bool :=
  match a, b with
  | VNaN, _ | _, VNaN => false
  | _, _ => bool_decide (a = b)
  end.

(** [typeof v]. *)
Definition typeof (h : heap) (v : value) : string :=
  match v with
  | VUndefined => "undefined"
  | VNull => "object"
  | VBool _ => "boolean"
  | VNum _ | VNaN => "number"
  | VBigInt _ => "bigint"
  | VStr _ => "string"
  | VSym _ => "symbol"
  | VRef l =>
      match h !! l with
      | Some (Obj _ (Some _) _) => "function"
      | _ => "object"
      end
  end.

(** Walking the prototype chain of the object at [l], looking for [target]
    among its proper prototypes.  Chains are acyclic, so the number of
    objects bounds their length. *)
Fixpoint in_proto_chain (fuel : nat) (h : heap) (target l : loc) : bool :=
  match fuel with
  | O => false
  | S fuel =>
      match h !! l with
      | Some o =>
          match proto o with
          | Some p => if decide (p = target) then true
                      else in_proto_chain fuel h target p
          | None => false
          end
      | None => false
      end
  end.

(** [target.isPrototypeOf(v)]: false for a primitive [v]. *)
Definition isPrototypeOf (h : heap) (target : loc) (v : value) : bool :=
  match v with
  | VRef l => in_proto_chain (length h) h target l
  | _ => false
  end.

(** [v instanceof C] for a constructor [C] without a hook of its own, whose
    [prototype] property is the object at [C_prototype]
    (OrdinaryHasInstance). *)
Definition instanceof (h : heap) (v : value) (C_prototype : loc) : bool :=
  isPrototypeOf h C_prototype v.

(** Property lookup on an object: own property first, then the prototype
    chain; [undefined] when it is found nowhere. *)
Fixpoint lookup_chain (fuel : nat) (h : heap) (l : loc) (key : string) : value :=
  match fuel with
  | O => VUndefined
  | S fuel =>
      match h !! l with
      | Some o =>
          match props o !! key with
          | Some v => v
          | None =>
              match proto o with
              | Some p => lookup_chain fuel h p key
              | None => VUndefined
              end
          end
      | None => VUndefined
      end
  end.

(** [this.key] where [this] is an object. *)
Definition Get (h : heap) (this : loc) (key : string) : value :=
  lookup_chain (length h) h this key.

(** ** The realm: the objects that exist when the library has been loaded *)

Module Realm.
Definition Object_prototype : loc := 0.
Definition Function_prototype : loc := 1.
(** The host error type [Error] and the object in its [prototype]
    property. *)
Definition Error : loc := 2.
Definition Error_prototype : loc := 3.
Definition TypeError : loc := 4.
Definition TypeError_prototype : loc := 5.
(** [class Option] and [class Result] with their [prototype] objects. *)
Definition Option : loc := 6.
Definition Option_prototype : loc := 7.
Definition Result : loc := 8.
Definition Result_prototype : loc := 9.
(** The function objects of the four classification methods and of the two
    extraction methods of [Result] that [Result.partition] looks up. *)
Definition isSome : loc := 10.
Definition isNone : loc := 11.
Definition isOk : loc := 12.
Definition isErr : loc := 13.
Definition unwrap : loc := 14.
Definition unwrapErr : loc := 15.

Definition function (c : code) (ps : gmap string value) : object :=
  Obj (Some Function_prototype) (Some c) ps.

(** The heap after loading.  The prototypes list the properties the
    library looks up by name: [name] and [message] of errors, the four
    predicates, and [unwrap] and [unwrapErr] of [Result].  The remaining
    methods of the two classes are not listed: where this development calls
    one, it is on a receiver of the method's own class. *)
Definition intrinsics : heap :=
  [ Obj None None ∅;
    Obj (Some Object_prototype) (Some Foreign) ∅;
    function Foreign {[ "name" := VStr "Error"; "prototype" := VRef Error_prototype ]};
    Obj (Some Object_prototype) None
        {[ "name" := VStr "Error"; "message" := VStr EmptyString; "constructor" := VRef Error ]};
    Obj (Some Error) (Some Foreign)
        {[ "name" := VStr "TypeError"; "prototype" := VRef TypeError_prototype ]};
    Obj (Some Error_prototype) None
        {[ "name" := VStr "TypeError"; "message" := VStr EmptyString;
           "constructor" := VRef TypeError ]};
    function Foreign {[ "name" := VStr "Option"; "prototype" := VRef Option_prototype ]};
    Obj (Some Object_prototype) None
        {[ "constructor" := VRef Option; "isSome" := VRef isSome;
           "isNone" := VRef isNone ]};
    function Foreign {[ "name" := VStr "Result"; "prototype" := VRef Result_prototype ]};
    Obj (Some Object_prototype) None
        {[ "constructor" := VRef Result; "isOk" := VRef isOk; "isErr" := VRef isErr;
           "unwrap" := VRef unwrap; "unwrapErr" := VRef unwrapErr ]};
    function IsSome {[ "name" := VStr "isSome" ]};
    function IsNone {[ "name" := VStr "isNone" ]};
    function IsOk {[ "name" := VStr "isOk" ]};
    function IsErr {[ "name" := VStr "isErr" ]};
    function Unwrap {[ "name" := VStr "unwrap" ]};
    function UnwrapErr {[ "name" := VStr "unwrapErr" ]} ].
End Realm.

(** A heap of a running program: the objects of the realm are in place.  The
    host error type and the class prototypes are never replaced. *)
Definition realm (h : heap) : Prop := Realm.intrinsics `prefix_of` h.

(** [export const none = Symbol("None")]: the first symbol the library
    creates. *)
Definition none : value := VSym 0.

(** ** Constructors *)

(** [new Error(msg)] for a string [msg]: a new object inheriting from
    [Error.prototype] with an own [message].  The [stack] that engines
    attach to a new error is not part of the language and is left out; no
    statement of this development depends on which branch [formatError]
    takes on an error made here. *)
Definition new_Error (msg : string) : M loc :=
  alloc (Obj (Some Realm.Error_prototype) None {[ "message" := VStr msg ]}).

(** A [TypeError] raised by the language itself; the wording of its message
    is the host's. *)
Definition throw_TypeError {A} (msg : string) : M A :=
  e ← alloc (Obj (Some Realm.TypeError_prototype) None {[ "message" := VStr msg ]});
  mthrow (VRef e).

(** [new Option(input)] and [new Result(input)]: [this.val = input]. *)
Definition new_Option (input : value) : M loc :=
  alloc (Obj (Some Realm.Option_prototype) None {[ "val" := input ]}).

Definition new_Result (input : value) : M loc :=
  alloc (Obj (Some Realm.Result_prototype) None {[ "val" := input ]}).

(** [v.key] for an arbitrary [v]: a [TypeError] on [undefined] and [null].
    The prototypes of the primitive types carry none of the properties the
    library reads ([stack], [message], [name] and the predicates). *)
Definition GetV (v : value) (key : string) : M value :=
  match v with
  | VUndefined | VNull => throw_TypeError "Cannot read properties of undefined"
  | VRef l => read (λ h, Get h l key)
  | _ => mret VUndefined
  end.

(** ** The host *)

(** What the embedding leaves to the host: the text of numbers and objects
    ([ToString] on an object runs its [toString]), re-indenting a [stack],
    and calling a function that is not one of the library's predicates.  All
    three may run user code and may throw. *)
Class Host := {
  host_text : value → M string;
  host_indent : value → M string;
  host_call : loc → loc → M value;
}.

(** A host for closed examples: it prints a fixed text, and a foreign
    function returns [undefined]. *)
Definition plain_host : Host := {|
  host_text := λ _, mret "[object Object]";
  host_indent := λ _, mret EmptyString;
  host_call := λ _ _, mret VUndefined;
|}.

Section WithHost.
Context {host : Host}.

(** [ToString], as a template literal applies it to an interpolated
    value. *)
Definition ToString (v : value) : M string :=
  match v with
  | VUndefined => mret "undefined"
  | VNull => mret "null"
  | VBool true => mret "true"
  | VBool false => mret "false"
  | VStr s => mret s
  | VSym _ => throw_TypeError "Cannot convert a Symbol value to a string"
  | VNum _ | VNaN | VBigInt _ | VRef _ => host_text v
  end.
End WithHost.

(** ** The factory functions ([Ok], [Err], [Some], [None]) *)

Module Factory.
(** [function Ok(input) { return new Result(input); }] *)
Definition Ok (input : value) : M value :=
  r ← new_Result input; mret (VRef r).

(** [function Err(input) { if (typeof input === "string") { return new
    Result(new Error(input)); } return new Result(input); }].  Inside the
    test [input] is a string; the inner [match] only takes it out of the
    value. *)
Definition Err (input : value) : M value :=
  ty ← read (λ h, typeof h input);
  if String.eqb ty "string" then
    match input with
    | VStr s => e ← new_Error s; r ← new_Result (VRef e); mret (VRef r)
    | _ => r ← new_Result input; mret (VRef r)
    end
  else r ← new_Result input; mret (VRef r).

(** [function Some(input) { return new Option(input); }] *)
Definition Some (input : value) : M value :=
  o ← new_Option input; mret (VRef o).

(** [function None() { return new Option(none); }] *)
Definition None : M value :=
  o ← new_Option none; mret (VRef o).
End Factory.

(** A method call [receiver.method(...)] where the receiver is the result
    of a method or factory of the library that returns an instance of the
    method's own class; a primitive has none of the methods. *)
Definition dot {A} (receiver : value) (method : loc → M A) : M A :=
  match receiver with
  | VRef this => method this
  | _ => throw_TypeError "is not a function"
  end.

(** ** [class Option] *)

Module Option.
(** [this.val] *)
Definition val (h : heap) (this : loc) : value := Get h this "val".

(** [isSome() { return this.val !== none; }] *)
Definition isSome (h : heap) (this : loc) : bool :=
  negb (strict_eq (val h this) none).

(** [isNone() { return this.val === none; }] *)
Definition isNone (h : heap) (this : loc) : bool :=
  strict_eq (val h this) none.

Definition expect (this : loc) (msg : string) : M value :=
  absent ← read (λ h, isNone h this);
  (if absent : bool then e ← new_Error msg; mthrow (VRef e) else mret tt);;
  read (λ h, val h this).

Definition unwrap (this : loc) : M value :=
  absent ← read (λ h, isNone h this);
  (if absent : bool then e ← new_Error "Unwrap called on None"; mthrow (VRef e)
   else mret tt);;
  read (λ h, val h this).

Definition unwrapOr (this : loc) (fallback : value) : M value :=
  absent ← read (λ h, isNone h this);
  if absent : bool then mret fallback else read (λ h, val h this).

(** [fn] takes no argument. *)
Definition unwrapOrElse (this : loc) (fn : M value) : M value :=
  absent ← read (λ h, isNone h this);
  if absent : bool then fn else read (λ h, val h this).

Definition map (this : loc) (fn : value → M value) : M value :=
  present ← read (λ h, isSome h this);
  if present : bool then
    v ← read (λ h, val h this);
    r ← fn v;
    o ← new_Option r;
    mret (VRef o)
  else mret (VRef this).

Definition mapOr (this : loc) (fallback : value) (fn : value → M value) : M value :=
  present ← read (λ h, isSome h this);
  if present : bool then v ← read (λ h, val h this); fn v
  else mret fallback.

Definition or (this : loc) (or : value) : M value :=
  present ← read (λ h, isSome h this);
  if present : bool then mret (VRef this) else mret or.

Definition okOr (this : loc) (err : value) : M value :=
  present ← read (λ h, isSome h this);
  if present : bool then v ← read (λ h, val h this); Factory.Ok v
  else Factory.Err err.

Definition peek (this : loc) : M value := read (λ h, val h this).

(** [if (this.val instanceof Option) return this.val; return this;] *)
Definition flatten (this : loc) : M value :=
  v ← read (λ h, val h this);
  nested ← read (λ h, instanceof h v Realm.Option_prototype);
  if nested : bool then mret v else mret (VRef this).

(** [static from(fn)]: no [try]; what [fn] throws leaves [from] as it
    is. *)
Definition from (fn : M value) : M value :=
  result ← fn;
  if strict_eq result VNull || strict_eq result VUndefined then
    o ← new_Option none; mret (VRef o)
  else
    o ← new_Option result; mret (VRef o).

(** [static async fromAsync(fn)]: [fn] returns a promise, which is
    awaited. *)
Definition fromAsync (fn : M promise) : promise :=
  async_function (
    p ← fn;
    result ← await p;
    if strict_eq result VNull || strict_eq result VUndefined then
      o ← new_Option none; mret (VRef o)
    else
      o ← new_Option result; mret (VRef o)).
End Option.

(** ** [class Result] *)

(** The object [Result.partition] returns: [{ ok: [...], err: [...] }]. *)
Module Partition.
Record t : Type := Make { ok : list value; err : list value }.
End Partition.

(** [input.reduce(f, init)] on an array without holes. *)
Fixpoint reduce {A B} (f : B → A → M B) (input : list A) (acc : B) : M B :=
  match input with
  | [] => mret acc
  | e :: rest => acc' ← f acc e; reduce f rest acc'
  end.

(** The characters of ["\n\t"]. *)
Definition newline_tab : string :=
  String (Ascii.ascii_of_nat 10) (String (Ascii.ascii_of_nat 9) EmptyString).

Module Result.
Section WithHost.
Context {host : Host}.

(** [this.val] *)
Definition val (h : heap) (this : loc) : value := Get h this "val".

(** [isOk() { return !(this.val instanceof Error || (this.val && typeof
    this.val === "object" && Error.isPrototypeOf(this.val))); }] *)
Definition isOk (h : heap) (this : loc) : bool :=
  negb (ToBoolean
    (js_or (VBool (instanceof h (val h this) Realm.Error_prototype))
           (js_and (js_and (val h this)
                           (VBool (String.eqb (typeof h (val h this)) "object")))
                   (VBool (isPrototypeOf h Realm.Error (val h this)))))).

(** [isErr()]: the same expression without the negation, so its result is
    the value of the expression. *)
Definition isErr (h : heap) (this : loc) : value :=
  js_or (VBool (instanceof h (val h this) Realm.Error_prototype))
        (js_and (js_and (val h this)
                        (VBool (String.eqb (typeof h (val h this)) "object")))
                (VBool (isPrototypeOf h Realm.Error (val h this)))).

(** [formatError(err)]: sets [err.stack] to [err.message] followed by the
    stack, or else the message, of the contained value, and throws
    [err]. *)
Definition formatError (this : loc) (err : loc) : M value :=
  m ← read (λ h, Get h err "message");
  head ← ToString m;
  v ← read (λ h, val h this);
  stack ← GetV v "stack";
  detail ← (if ToBoolean stack then
              s ← host_indent stack; mret (newline_tab ++ s)%string
            else
              msg ← GetV v "message"; ToString msg);
  set_prop err "stack" (VStr (head ++ ": " ++ detail)%string);;
  mthrow (VRef err).

Definition expect (this : loc) (msg : string) : M value :=
  failed ← read (λ h, isErr h this);
  (if ToBoolean failed then e ← new_Error msg; formatError this e
   else mret VUndefined);;
  read (λ h, val h this).

Definition expectErr (this : loc) (msg : string) : M value :=
  succeeded ← read (λ h, isOk h this);
  (if succeeded : bool then e ← new_Error msg; formatError this e
   else mret VUndefined);;
  read (λ h, val h this).

Definition unwrap (this : loc) : M value :=
  failed ← read (λ h, isErr h this);
  (if ToBoolean failed then
     v ← read (λ h, val h this);
     n ← GetV v "name";
     name ← ToString n;
     e ← new_Error ("Unwrap called on " ++ name)%string;
     formatError this e
   else mret VUndefined);;
  read (λ h, val h this).

Definition unwrapErr (this : loc) : M value :=
  succeeded ← read (λ h, isOk h this);
  (if succeeded : bool then
     v ← read (λ h, val h this);
     text ← ToString v;
     e ← new_Error ("UnwrapError called on value - " ++ text)%string;
     mthrow (VRef e)
   else mret VUndefined);;
  read (λ h, val h this).

Definition unwrapOr (this : loc) (fallback : value) : M value :=
  failed ← read (λ h, isErr h this);
  if ToBoolean failed then mret fallback else read (λ h, val h this).

(** [fn] receives the contained failure. *)
Definition unwrapOrElse (this : loc) (fn : value → M value) : M value :=
  failed ← read (λ h, isErr h this);
  if ToBoolean failed then v ← read (λ h, val h this); fn v
  else read (λ h, val h this).

Definition map (this : loc) (fn : value → M value) : M value :=
  succeeded ← read (λ h, isOk h this);
  if succeeded : bool then
    v ← read (λ h, val h this);
    r ← fn v;
    o ← new_Result r;
    mret (VRef o)
  else mret (VRef this).

Definition mapErr (this : loc) (fn : value → M value) : M value :=
  succeeded ← read (λ h, isOk h this);
  if succeeded : bool then mret (VRef this)
  else
    v ← read (λ h, val h this);
    r ← fn v;
    o ← new_Result r;
    mret (VRef o).

Definition mapOr (this : loc) (fallback : value) (fn : value → M value) : M value :=
  succeeded ← read (λ h, isOk h this);
  if succeeded : bool then v ← read (λ h, val h this); fn v
  else mret fallback.

Definition or (this : loc) (or : value) : M value :=
  succeeded ← read (λ h, isOk h this);
  if succeeded : bool then mret (VRef this) else mret or.

Definition ok (this : loc) : M value :=
  succeeded ← read (λ h, isOk h this);
  if succeeded : bool then v ← read (λ h, val h this); Factory.Some v
  else Factory.None.

Definition peek (this : loc) : M value := read (λ h, val h this).

(** [throw() { if (this.isErr()) { throw this.val; } }] *)
Definition throw (this : loc) : M value :=
  failed ← read (λ h, isErr h this);
  if ToBoolean failed then v ← read (λ h, val h this); mthrow v
  else mret VUndefined.

(** [if (this.val instanceof Result) return this.val; return this;] *)
Definition flatten (this : loc) : M value :=
  v ← read (λ h, val h this);
  nested ← read (λ h, instanceof h v Realm.Result_prototype);
  if nested : bool then mret v else mret (VRef this).

(** [static from(fn) { try { return new Result(fn()); } catch (e) { return
    new Result(e); } }] *)
Definition from (fn : M value) : M value :=
  try_catch (v ← fn; r ← new_Result v; mret (VRef r))
            (λ e, r ← new_Result e; mret (VRef r)).

(** [static async fromAsync(fn)]: the same with [await fn()]. *)
Definition fromAsync (fn : M promise) : promise :=
  async_function (
    try_catch (p ← fn; v ← await p; r ← new_Result v; mret (VRef r))
              (λ e, r ← new_Result e; mret (VRef r))).

(** [f.call(this)] without arguments, for a value [f] found by property
    lookup: a [TypeError] unless [f] is a function; a function of the
    library runs its body on [this], any other function is the host's. *)
Definition call_function (f : value) (this : loc) : M value :=
  match f with
  | VRef l =>
      o ← read (λ h, h !! l);
      match o ≫= call with
      | Some IsOk => read (λ h, VBool (isOk h this))
      | Some IsErr => read (λ h, isErr h this)
      | Some IsSome => read (λ h, VBool (Option.isSome h this))
      | Some IsNone => read (λ h, VBool (Option.isNone h this))
      | Some Unwrap => unwrap this
      | Some UnwrapErr => unwrapErr this
      | Some Foreign => host_call l this
      | None => throw_TypeError "is not a function"
      end
  | _ => throw_TypeError "is not a function"
  end.

(** [e.name()] on an arbitrary value [e]: the property is looked up on [e]
    and what is found is called with [e] as [this].  Reading a property of
    [undefined] or [null] is a [TypeError]; the prototypes of the primitive
    types have none of the methods, so the call is a [TypeError] there
    too. *)
Definition invoke (e : value) (name : string) : M value :=
  match e with
  | VUndefined | VNull => throw_TypeError "Cannot read properties of undefined"
  | VRef l => f ← read (λ h, Get h l name); call_function f l
  | _ => throw_TypeError "is not a function"
  end.

(** [static partition(input) { return input.reduce((acc, e) => { if
    (e.isOk()) acc.ok.push(e.unwrap()); else acc.err.push(e.unwrapErr());
    return acc; }, { ok: [], err: [] }); }]: the three methods are looked up
    on each element, whatever it is. *)
Definition partition (input : list value) : M Partition.t :=
  reduce (λ acc e,
            succeeded ← invoke e "isOk";
            if ToBoolean succeeded then
              v ← invoke e "unwrap";
              mret (Partition.Make (Partition.ok acc ++ [v]) (Partition.err acc))
            else
              v ← invoke e "unwrapErr";
              mret (Partition.Make (Partition.ok acc) (Partition.err acc ++ [v])))
         input (Partition.Make [] []).
End WithHost.
End Result.

(** ** The [Symbol.hasInstance] hooks of the factory functions *)

Section Hooks.
Context {host : Host}.

(** [f.call(this)] without arguments, for a value [f] found by property
    lookup, as the hooks use it. *)
Definition Call (f : value) (this : loc) : M value :=
  Result.call_function f this.

(** [instance?.name()]: [undefined] when [instance] is [null] or
    [undefined]; otherwise the method is looked up and called, whatever the
    lookup finds. *)
Definition optional_call (instance : value) (name : string) : M value :=
  match instance with
  | VUndefined | VNull => mret VUndefined
  | VRef l => f ← read (λ h, Get h l name); Call f l
  | _ => throw_TypeError "is not a function"
  end.

(** [(instance) => { if (typeof instance !== "object") return false;
    return instance?.predicate() || false; }] *)
Definition hasInstance (predicate : string) (instance : value) : M value :=
  ty ← read (λ h, typeof h instance);
  if negb (String.eqb ty "object") then mret (VBool false)
  else r ← optional_call instance predicate; mret (js_or r (VBool false)).
End Hooks.

Module HasInstance.
Section WithHost.
Context {host : Host}.
Definition Ok : value → M value := hasInstance "isOk".
Definition Err : value → M value := hasInstance "isErr".
Definition Some : value → M value := hasInstance "isSome".
Definition None : value → M value := hasInstance "isNone".
End WithHost.
End HasInstance.

(** ** The standalone adapter of [src/async.ts] *)

(** [async function async(fn) { try { const data = await fn; return
    Ok(data); } catch (error) { return Err(error); } }] *)
Definition async (fn : promise) : promise :=
  async_function (
    try_catch (data ← await fn; Factory.Ok data)
              (λ error, Factory.Err error)).

(** ** Containers in a heap *)

(** The object at [l] was made by [new Result(v)], respectively
    [new Option(v)]. *)
Definition is_Result (h : heap) (l : loc) (v : value) : Prop :=
  h !! l = Some (Obj (Some Realm.Result_prototype) None {[ "val" := v ]}).

Definition is_Option (h : heap) (l : loc) (v : value) : Prop :=
  h !! l = Some (Obj (Some Realm.Option_prototype) None {[ "val" := v ]}).

(** A computation completes normally from [h]. *)
Definition returns {A} (m : M A) (h : heap) : Prop :=
  ∃ a h', m h = (Normal a, h').

(** A computation completes abruptly from [h]. *)
Definition raises {A} (m : M A) (h : heap) : Prop :=
  ∃ e h', m h = (Abrupt e, h').

(** A caller-supplied function that is total: it returns on every argument
    from every heap. *)
Definition total (fn : value → M value) : Prop := ∀ v h, returns (fn v) h.

(** [Some(v).okOr(e).ok().unwrap()] *)
Definition round_trip (v e : value) : M value :=
  s ← Factory.Some v;
  r ← dot s (λ this, Option.okOr this e);
  o ← dot r Result.ok;
  dot o Option.unwrap.

(** [None().okOr(e)] *)
Definition absent_to_result (e : value) : M value :=
  n ← Factory.None;
  dot n (λ this, Option.okOr this e).

(** [{}] and [Object.create(p)]: an object without own properties. *)
Definition plain_object : object := Obj (Some Realm.Object_prototype) None ∅.

Definition Object_create (p : loc) : M loc := alloc (Obj (Some p) None ∅).

(** ** The instance operations, as data

    To speak about every operation of a class at once, the operations and
    their arguments are collected in a type and [run] dispatches to the
    methods above. *)

Module ResultOp.
Inductive t : Type :=
| expect (msg : string)
| expectErr (msg : string)
| unwrap
| unwrapErr
| unwrapOr (fallback : value)
| unwrapOrElse (fn : value → M value)
| map (fn : value → M value)
| mapErr (fn : value → M value)
| mapOr (fallback : value) (fn : value → M value)
| or (alt : value)
| ok
| peek
| throw
| flatten.

Definition run {host : Host} (op : t) (this : loc) : M value :=
  match op with
  | expect msg => Result.expect this msg
  | expectErr msg => Result.expectErr this msg
  | unwrap => Result.unwrap this
  | unwrapErr => Result.unwrapErr this
  | unwrapOr fallback => Result.unwrapOr this fallback
  | unwrapOrElse fn => Result.unwrapOrElse this fn
  | map fn => Result.map this fn
  | mapErr fn => Result.mapErr this fn
  | mapOr fallback fn => Result.mapOr this fallback fn
  | or alt => Result.or this alt
  | ok => Result.ok this
  | peek => Result.peek this
  | throw => Result.throw this
  | flatten => Result.flatten this
  end.

(** The combinators, as opposed to the unchecked extractions, [throw] and
    [peek]. *)
Definition combinator (op : t) : bool :=
  match op with
  | unwrapOr _ | unwrapOrElse _ | map _ | mapErr _ | mapOr _ _ | or _ | ok
  | flatten => true
  | expect _ | expectErr _ | unwrap | unwrapErr | peek | throw => false
  end.

(** The unchecked extractions and [throw]. *)
Definition unchecked (op : t) : bool :=
  match op with
  | expect _ | expectErr _ | unwrap | unwrapErr | throw => true
  | _ => false
  end.

(** A property of the function argument of an operation, if it has one. *)
Definition callback (P : (value → M value) → Prop) (op : t) : Prop :=
  match op with
  | unwrapOrElse fn | map fn | mapErr fn | mapOr _ fn => P fn
  | _ => True
  end.
End ResultOp.

Module OptionOp.
Inductive t : Type :=
| expect (msg : string)
| unwrap
| unwrapOr (fallback : value)
| unwrapOrElse (fn : M value)
| map (fn : value → M value)
| mapOr (fallback : value) (fn : value → M value)
| or (alt : value)
| okOr (err : value)
| peek
| flatten.

Definition run (op : t) (this : loc) : M value :=
  match op with
  | expect msg => Option.expect this msg
  | unwrap => Option.unwrap this
  | unwrapOr fallback => Option.unwrapOr this fallback
  | unwrapOrElse fn => Option.unwrapOrElse this fn
  | map fn => Option.map this fn
  | mapOr fallback fn => Option.mapOr this fallback fn
  | or alt => Option.or this alt
  | okOr err => Option.okOr this err
  | peek => Option.peek this
  | flatten => Option.flatten this
  end.

Definition combinator (op : t) : bool :=
  match op with
  | unwrapOr _ | unwrapOrElse _ | map _ | mapOr _ _ | or _ | okOr _ | flatten => true
  | expect _ | unwrap | peek => false
  end.

Definition unchecked (op : t) : bool :=
  match op with
  | expect _ | unwrap => true
  | _ => false
  end.

(** A property of the function argument of an operation, if it has one; the
    function of [unwrapOrElse] takes no argument. *)
Definition callback (P : (value → M value) → Prop) (op : t) : Prop :=
  match op with
  | unwrapOrElse fn => P (λ _, fn)
  | map fn | mapOr _ fn => P fn
  | _ => True
  end.
End OptionOp.

(** ** Classification, heaps and frames *)

(** [v] is an object that is not a function. *)
Definition is_plain_object (h : heap) (v : value) : bool :=
  match v with
  | VRef l =>
      match h !! l with
      | Some (Obj _ (Some _) _) => false
      | _ => true
      end
  | _ => false
  end.

(** What the code of [isErr] tests, without the operators: [v] inherits from
    [Error.prototype], or [v] is an object (not a function) that has the
    constructor [Error] itself on its prototype chain. *)
Definition error_like (h : heap) (v : value) : bool :=
  instanceof h v Realm.Error_prototype
  || (is_plain_object h v && isPrototypeOf h Realm.Error v).

(** The classification in the words of the specification: [v] is an instance
    of the host error type, or a non-primitive value whose prototype chain
    includes the prototype of the host error type. *)
Definition failure_by_spec (h : heap) (v : value) : bool :=
  instanceof h v Realm.Error_prototype
  || (match v with VRef _ => true | _ => false end
      && isPrototypeOf h Realm.Error_prototype v).

(** No object of the heap has a prototype outside the heap. *)
Definition closed (h : heap) : Prop :=
  ∀ l o p, h !! l = Some o → proto o = Some p → p < length h.

(** A value of the program: a reference points into the heap. *)
Definition valid (h : heap) (v : value) : Prop :=
  match v with
  | VRef l => l < length h
  | _ => True
  end.

(** A computation leaves the object at [l] as it is. *)
Definition untouched {A} (l : loc) (m : M A) : Prop :=
  ∀ h o, h !! l = Some o → (m h).2 !! l = Some o.

(** A host that leaves the object at [l] as it is. *)
Definition host_untouched (host : Host) (l : loc) : Prop :=
  (∀ v, untouched l (host_text v)) ∧
  (∀ v, untouched l (host_indent v)) ∧
  (∀ f this, untouched l (host_call f this)).

(** The nodes of the prototype chain from [l] up to, and without, the first
    occurrence of [target] among the proper prototypes. *)
Inductive chain_to (h : heap) (target : loc) : loc → list loc → Prop :=
| chain_last l o :
    h !! l = Some o → proto o = Some target → chain_to h target l [l]
| chain_next l o p ps :
    h !! l = Some o → proto o = Some p → p ≠ target →
    chain_to h target p ps → chain_to h target l (l :: ps).


(** ** Example programs *)

(** [Ok(Object.create(Error))]: an object whose prototype is the constructor
    [Error], not [Error.prototype]. *)
Definition Ok_of_Object_create_Error : M value :=
  o ← Object_create Realm.Error;
  Factory.Ok (VRef o).

(** [() => { throw "x"; }] *)
Definition throw_string : M value := mthrow (VStr "x").

(** [[Ok(2), Ok(16), Err("boom")]] *)
Definition Ok_Ok_Err : M (list value) :=
  a ← Factory.Ok (VNum 2);
  b ← Factory.Ok (VNum 16);
  c ← Factory.Err (VStr "boom");
  mret [a; b; c].

(** [(v) => v] *)
Definition identity : value → M value := λ v, mret v.

(** [Some(new Error("x")).okOr("fallback").ok().unwrap()] *)
Definition round_trip_of_Error : M value :=
  e ← new_Error "x";
  round_trip (VRef e) (VStr "fallback").

(** A decision procedure for [closed]. *)
Definition closedb (h : heap) : bool :=
  forallb (λ o, match proto o with
                | Some p => p <? length h
                | None => true
                end) h.

(** The realm with one more object, a [new Error("x")]. *)
Definition heap_with_error : heap :=
  Realm.intrinsics ++ [Obj (Some Realm.Error_prototype) None {[ "message" := VStr "x" ]}].

(** [const candidate = {}] *)
Definition empty_object : M value := o ← alloc plain_object; mret (VRef o).

(** [function f() {}; f.isOk = Result.prototype.isOk] *)
Definition function_with_isOk : M value :=
  f ← alloc (Realm.function Foreign {[ "isOk" := VRef Realm.isOk ]});
  mret (VRef f).

(** The realm with [Ok(1)] and [Some(1)]. *)
Definition heap_with_containers : heap :=
  Realm.intrinsics
  ++ [Obj (Some Realm.Result_prototype) None {[ "val" := VNum 1 ]};
      Obj (Some Realm.Option_prototype) None {[ "val" := VNum 1 ]}].

(** ** Iteration and chains of calls *)

(** [*[Symbol.iterator]() { if (this.isOk()) yield this.val; }] and the same
    with [isSome] in [class Option]: the values a complete iteration of the
    container yields, as [[...container]] collects them. *)
Definition spread_Result (h : heap) (this : loc) : list value :=
  if Result.isOk h this then [Result.val h this] else [].

Definition spread_Option (h : heap) (this : loc) : list value :=
  if Option.isSome h this then [Option.val h this] else [].

(** [typeof v === "string"] *)
Definition is_string (v : value) : bool :=
  match v with
  | VStr _ => true
  | _ => false
  end.

(** [r ?? fallback] *)
Definition nullish (r fallback : value) : value :=
  match r with
  | VNull | VUndefined => fallback
  | _ => r
  end.

(** [Result.from(fn).throw()] *)
Definition from_then_throw (fn : M value) : M value :=
  r ← Result.from fn;
  dot r Result.throw.

(** [Option.from(fn).unwrapOr(fallback)] *)
Definition from_then_unwrapOr (fn : M value) (fallback : value) : M value :=
  o ← Option.from fn;
  dot o (λ this, Option.unwrapOr this fallback).

(** [this.ok().unwrapOr(fallback)] *)
Definition ok_then_unwrapOr (this : loc) (fallback : value) : M value :=
  o ← Result.ok this;
  dot o (λ this, Option.unwrapOr this fallback).

(** [this.flatten().flatten()] *)
Definition flatten_twice_Result (this : loc) : M value :=
  y ← Result.flatten this;
  dot y Result.flatten.

Definition flatten_twice_Option (this : loc) : M value :=
  y ← Option.flatten this;
  dot y Option.flatten.

(** The object [new Error(msg)] makes. *)
Definition Error_object (msg : string) : object :=
  Obj (Some Realm.Error_prototype) None {[ "message" := VStr msg ]}.

(** The realm with [new Error("x")], [Err] of it, [Ok(1)], [Some(1)] and
    [None()], at the locations 16 to 20. *)
Definition heap_with_all : heap :=
  Realm.intrinsics
  ++ [Error_object "x";
      Obj (Some Realm.Result_prototype) None {[ "val" := VRef 16 ]};
      Obj (Some Realm.Result_prototype) None {[ "val" := VNum 1 ]};
      Obj (Some Realm.Option_prototype) None {[ "val" := VNum 1 ]};
      Obj (Some Realm.Option_prototype) None {[ "val" := none ]}].

(** The realm with [Ok()], the container of [undefined]. *)
Definition heap_with_Ok_undefined : heap :=
  Realm.intrinsics
  ++ [Obj (Some Realm.Result_prototype) None {[ "val" := VUndefined ]}].

(** A function without effects, [(v) => f(v)]. *)
Definition pure (f : value → value) : value → M value := λ v, mret (f v).

(** [this.map(f).map(g)] *)
Definition map_twice_Result (this : loc) (f g : value → M value) : M value :=
  x ← Result.map this f;
  dot x (λ this, Result.map this g).

Definition map_twice_Option (this : loc) (f g : value → M value) : M value :=
  x ← Option.map this f;
  dot x (λ this, Option.map this g).
(** * Properties *)

(** ** The monad *)

Ltac unfold_monad :=
  unfold mbind, M_bind, mret, M_ret, mthrow, M_throw, read, alloc, try_catch,
    await, async_function in *.

Lemma bind_normal {A B} (m : M A) (f : A → M B) h a h' :
  m h = (Normal a, h') → (m ≫= f) h = f a h'.
Proof. intros Hm. unfold mbind, M_bind. by rewrite Hm. Qed.

Lemma bind_abrupt {A B} (m : M A) (f : A → M B) h e h' :
  m h = (Abrupt e, h') → (m ≫= f) h = (Abrupt e, h').
Proof. intros Hm. unfold mbind, M_bind. by rewrite Hm. Qed.

Lemma bind_read {A B} (g : heap → A) (f : A → M B) h :
  (read g ≫= f) h = f (g h) h.
Proof. reflexivity. Qed.

Lemma returns_not_raises {A} (m : M A) h : returns m h → ¬ raises m h.
Proof. intros (a & h1 & Ha) (e & h2 & He). congruence. Qed.

(** ** Heaps *)

Lemma lookup_alloc (h : heap) (o : object) : (h ++ [o]) !! length h = Some o.
Proof. rewrite lookup_app_r; [|lia]. by rewrite Nat.sub_diag. Qed.

Lemma lookup_alloc_next (h : heap) (o o' : object) :
  (h ++ [o; o']) !! S (length h) = Some o'.
Proof.
  rewrite lookup_app_r; [|lia].
  replace (S (length h) - length h) with 1 by lia. reflexivity.
Qed.

Lemma lookup_alloc_first (h : heap) (o : object) (k : list object) :
  (h ++ o :: k) !! length h = Some o.
Proof. rewrite lookup_app_r; [|lia]. by rewrite Nat.sub_diag. Qed.

Lemma lookup_alloc_old (h : heap) (o o' : object) l :
  h !! l = Some o → (h ++ [o']) !! l = Some o.
Proof. intros Hl. by rewrite lookup_app_l_Some with (x := o). Qed.

Lemma Get_own h l o key v :
  h !! l = Some o → props o !! key = Some v → Get h l key = v.
Proof.
  intros Hl Hk. unfold Get.
  destruct (length h) as [|n] eqn:Hn.
  - apply lookup_lt_Some in Hl. lia.
  - simpl. by rewrite Hl, Hk.
Qed.

Lemma Get_val_alloc h p v :
  Get (h ++ [Obj (Some p) None {[ "val" := v ]}]) (length h) "val" = v.
Proof. eapply Get_own; [apply lookup_alloc | done]. Qed.

(** ** Classification of a contained value *)

Lemma typeof_object_truthy h v b :
  ToBoolean (js_and (js_and v (VBool (String.eqb (typeof h v) "object"))) (VBool b))
  = is_plain_object h v && b.
Proof.
  destruct v as [| |[]|n| |n|s| |l]; try reflexivity.
  - unfold js_and; simpl.
    destruct (negb (n =? 0)%Z) eqn:E; simpl; rewrite ?E; simpl; by rewrite ?E.
  - unfold js_and; simpl.
    destruct (negb (n =? 0)%Z) eqn:E; simpl; rewrite ?E; simpl; by rewrite ?E.
  - unfold js_and; simpl.
    destruct (negb (String.eqb s EmptyString)) eqn:E; simpl; rewrite ?E; simpl; by rewrite ?E.
  - simpl. destruct (h !! l) as [[p [c|] ps]|]; reflexivity.
Qed.

Lemma isErr_truthy h this :
  ToBoolean (Result.isErr h this) = error_like h (Result.val h this).
Proof.
  unfold Result.isErr, error_like.
  destruct (instanceof h (Result.val h this) Realm.Error_prototype); [done|].
  unfold js_or at 1. simpl ToBoolean at 1. cbv iota.
  by rewrite typeof_object_truthy.
Qed.

(** On a falsy content [isErr()] returns the content itself ([0], the empty
    string, [null], [undefined], [NaN]), not [false]. *)
Lemma isErr_of_falsy h this :
  ToBoolean (Result.val h this) = false →
  Result.isErr h this = Result.val h this.
Proof.
  intros Hv. unfold Result.isErr.
  assert (instanceof h (Result.val h this) Realm.Error_prototype = false) as ->.
  { by destruct (Result.val h this). }
  unfold js_or, js_and. simpl ToBoolean at 1. cbv iota. by rewrite !Hv.
Qed.

Lemma isOk_not_isErr h this :
  Result.isOk h this = negb (ToBoolean (Result.isErr h this)).
Proof. reflexivity. Qed.

Lemma isOk_error_like h this :
  Result.isOk h this = negb (error_like h (Result.val h this)).
Proof. by rewrite isOk_not_isErr, isErr_truthy. Qed.

(** C10: for every [Result], whatever operation made it and whatever value
    it holds, [isOk()] is the negation of the truth value of [isErr()], so
    exactly one of the two classifications holds. *)
Theorem isOk_is_negation_of_isErr (h : heap) (this : loc) :
  Result.isOk h this = negb (ToBoolean (Result.isErr h this))
  ∧ xorb (Result.isOk h this) (ToBoolean (Result.isErr h this)) = true.
Proof.
  split; [reflexivity|].
  rewrite isOk_not_isErr. by destruct (ToBoolean (Result.isErr h this)).
Qed.

(** C2, as stated, fails: [Ok(Object.create(Error))] holds an object that is
    not an instance of [Error] and does not have [Error.prototype] on its
    prototype chain, yet [isErr()] is true and [isOk()] is false, because the
    code tests [Error.isPrototypeOf], the constructor itself. *)
Lemma Object_create_Error_is_failure :
  let '(c, h) := Ok_of_Object_create_Error Realm.intrinsics in
  c = Normal (VRef 17)
  ∧ is_Result h 17 (VRef 16)
  ∧ Result.isErr h 17 = VBool true
  ∧ Result.isOk h 17 = false
  ∧ failure_by_spec h (VRef 16) = false.
Proof. vm_compute. by repeat split. Qed.

(** C2, amended: for every [Result] with contained value [v], [isErr()] is
    truthy and [isOk()] is false iff [v] is an instance of [Error] or [v] is
    an object (not a function) with the constructor [Error] itself on its
    prototype chain; for every other [v], [isOk()] is true and [isErr()] is
    falsy. *)
Theorem classification_is_structural (h : heap) (this : loc) :
  let v := Result.val h this in
  let failure :=
    instanceof h v Realm.Error_prototype = true
    ∨ (is_plain_object h v = true ∧ isPrototypeOf h Realm.Error v = true) in
  (ToBoolean (Result.isErr h this) = true ∧ Result.isOk h this = false ↔ failure)
  ∧ (Result.isOk h this = true ∧ ToBoolean (Result.isErr h this) = false ↔ ¬ failure).
Proof.
  intros v failure. rewrite isOk_error_like, isErr_truthy. fold v.
  assert (error_like h v = true ↔ failure) as Hf.
  { unfold error_like, failure. rewrite orb_true_iff, andb_true_iff. done. }
  split.
  - rewrite <- Hf. destruct (error_like h v); simpl; intuition congruence.
  - rewrite <- Hf. destruct (error_like h v); simpl; intuition congruence.
Qed.

(** ** [Option]: the absence marker *)

Lemma strict_eq_none (v : value) : strict_eq v none = bool_decide (v = none).
Proof. by destruct v. Qed.

Lemma isSome_alloc h v :
  Option.isSome (h ++ [Obj (Some Realm.Option_prototype) None {[ "val" := v ]}])
    (length h) = negb (bool_decide (v = none)).
Proof. unfold Option.isSome, Option.val. by rewrite Get_val_alloc, strict_eq_none. Qed.

Lemma isNone_alloc h v :
  Option.isNone (h ++ [Obj (Some Realm.Option_prototype) None {[ "val" := v ]}])
    (length h) = bool_decide (v = none).
Proof. unfold Option.isNone, Option.val. by rewrite Get_val_alloc, strict_eq_none. Qed.

(** C8, as stated, fails at one value: [Some(none)], the factory applied to
    the exported marker itself, reports [isSome()] false and [isNone()]
    true. *)
Lemma Some_of_the_marker_is_absent :
  let '(c, h) := Factory.Some none Realm.intrinsics in
  c = Normal (VRef 16)
  ∧ Option.isSome h 16 = false
  ∧ Option.isNone h 16 = true.
Proof. vm_compute. by repeat split. Qed.

(** C8, amended: for every value [v] other than the absence marker itself,
    [null] and [undefined] included, [Some(v).isSome()] is true and
    [Some(v).isNone()] is false; [None().isNone()] is true and
    [None().isSome()] is false. *)
Theorem Some_is_present_None_is_absent (h : heap) (v : value) :
  v ≠ none →
  (∃ s h', Factory.Some v h = (Normal (VRef s), h')
           ∧ is_Option h' s v
           ∧ Option.isSome h' s = true
           ∧ Option.isNone h' s = false)
  ∧ (∃ n h', Factory.None h = (Normal (VRef n), h')
             ∧ Option.isNone h' n = true
             ∧ Option.isSome h' n = false).
Proof.
  intros Hv. split.
  - eexists _, _. split; [reflexivity|].
    split; [apply lookup_alloc|].
    rewrite isSome_alloc, isNone_alloc.
    by rewrite bool_decide_eq_false_2.
  - eexists _, _. split; [reflexivity|].
    by rewrite isSome_alloc, isNone_alloc.
Qed.

(** The premise holds for [null] in the realm. *)
Lemma Some_is_present_None_is_absent_witness :
  VNull ≠ none
  ∧ (∃ s h', Factory.Some VNull Realm.intrinsics = (Normal (VRef s), h')
             ∧ is_Option h' s VNull
             ∧ Option.isSome h' s = true
             ∧ Option.isNone h' s = false).
Proof.
  split; [discriminate|].
  apply (Some_is_present_None_is_absent Realm.intrinsics VNull). discriminate.
Defined.

(** C7: [Option.from(fn)] is [None()] when [fn] returns [null] or
    [undefined] and [Some(result)] for every other result, so that [0] and
    the empty string are present; what [fn] throws leaves [Option.from]
    uncaught, and [Option.fromAsync] rejects with what [fn] throws or its
    promise rejects with. *)
Theorem Option_from_wraps_nullable (fn : M value) (afn : M promise) (h : heap) :
  match fn h with
  | (Normal VNull, h1) | (Normal VUndefined, h1) =>
      Option.from fn h = Factory.None h1
  | (Normal r, h1) => Option.from fn h = Factory.Some r h1
  | (Abrupt e, h1) => Option.from fn h = (Abrupt e, h1)
  end
  ∧ match (afn ≫= await) h with
    | (Normal VNull, h1) | (Normal VUndefined, h1) =>
        Option.fromAsync afn h = Factory.None h1
    | (Normal r, h1) => Option.fromAsync afn h = Factory.Some r h1
    | (Abrupt e, h1) => Option.fromAsync afn h = (Abrupt e, h1)
    end
  ∧ (let present r :=
        ∃ o h', Option.from (mret r) h = (Normal (VRef o), h')
                ∧ Option.isSome h' o = true
                ∧ Option.isNone h' o = false
                ∧ Option.unwrap o h' = (Normal r, h') in
      present (VNum 0) ∧ present (VStr EmptyString)).
Proof.
  split; [|split].
  - unfold Option.from, mbind, M_bind.
    destruct (fn h) as [[r|e] h1]; [|done].
    by destruct r.
  - unfold Option.fromAsync, async_function, await, mbind, M_bind.
    destruct (afn h) as [[p|e] h0]; [|done].
    destruct (p h0) as [[r|e] h1]; [|done].
    by destruct r.
  - split; (eexists _, _; split; [reflexivity|]);
      rewrite isSome_alloc, isNone_alloc;
      unfold Option.unwrap; rewrite bind_read, isNone_alloc;
      simpl; unfold_monad; simpl; unfold Option.val; by rewrite Get_val_alloc.
Qed.

(** ** Capturing what a computation throws *)

Lemma instanceof_direct h l o C :
  h !! l = Some o → proto o = Some C → instanceof h (VRef l) C = true.
Proof.
  intros Hl Hp. unfold instanceof, isPrototypeOf.
  destruct (length h) as [|n] eqn:Hn.
  - apply lookup_lt_Some in Hl. lia.
  - simpl. rewrite Hl, Hp. by rewrite decide_True.
Qed.

Lemma typeof_not_string_ref h l : String.eqb (typeof h (VRef l)) "string" = false.
Proof. simpl. by destruct (h !! l) as [[p [c|] ps]|]. Qed.

Lemma Err_string h s :
  Factory.Err (VStr s) h =
  (Normal (VRef (S (length h))),
   h ++ [Obj (Some Realm.Error_prototype) None {[ "message" := VStr s ]};
         Obj (Some Realm.Result_prototype) None {[ "val" := VRef (length h) ]}]).
Proof.
  unfold Factory.Err, new_Error, new_Result. unfold_monad. simpl.
  rewrite length_app, Nat.add_1_r. by rewrite <- app_assoc.
Qed.

Lemma Err_other h v :
  (∀ s, v ≠ VStr s) →
  Factory.Err v h =
  (Normal (VRef (length h)),
   h ++ [Obj (Some Realm.Result_prototype) None {[ "val" := v ]}]).
Proof.
  intros Hv. unfold Factory.Err. rewrite bind_read.
  destruct v; try reflexivity.
  - by destruct (Hv s).
  - by rewrite typeof_not_string_ref.
Qed.

Lemma isErr_of_new_Error h s :
  let h' := h ++ [Obj (Some Realm.Error_prototype) None {[ "message" := VStr s ]};
                  Obj (Some Realm.Result_prototype) None {[ "val" := VRef (length h) ]}] in
  ToBoolean (Result.isErr h' (S (length h))) = true.
Proof.
  intros h'. rewrite isErr_truthy.
  assert (Result.val h' (S (length h)) = VRef (length h)) as ->.
  { eapply (Get_own _ _ (Obj (Some Realm.Result_prototype) None
                               {[ "val" := VRef (length h) ]})); [|done].
    apply lookup_alloc_next. }
  unfold error_like.
  rewrite (instanceof_direct h' (length h)
             (Obj (Some Realm.Error_prototype) None {[ "message" := VStr s ]})
             Realm.Error_prototype);
    [done | apply lookup_alloc_first | done].
Qed.

(** C1: the code at [() => { throw "x"; }].  [Result.from] returns a
    container that holds ["x"], on which [isErr()] is [false] and [isOk()] is
    [true]: the thrown value is held as a success, not as a failure.
    [Result.fromAsync] does the same when the promise rejects with ["x"].
    The standalone adapter [async], given the same rejection, goes through
    [Err], which wraps ["x"] into a new [Error] with that message, and
    returns a failure. *)
Theorem thrown_string_is_classified_ok :
  (let '(c, h) := Result.from throw_string Realm.intrinsics in
   c = Normal (VRef 16)
   ∧ is_Result h 16 (VStr "x")
   ∧ Result.isErr h 16 = VBool false
   ∧ Result.isOk h 16 = true)
  ∧ (let '(c, h) := Result.fromAsync (mret throw_string) Realm.intrinsics in
     c = Normal (VRef 16)
     ∧ is_Result h 16 (VStr "x")
     ∧ Result.isErr h 16 = VBool false
     ∧ Result.isOk h 16 = true)
  ∧ (let '(c, h) := async throw_string Realm.intrinsics in
     c = Normal (VRef 17)
     ∧ is_Result h 17 (VRef 16)
     ∧ instanceof h (VRef 16) Realm.Error_prototype = true
     ∧ Get h 16 "message" = VStr "x"
     ∧ Result.isErr h 17 = VBool true
     ∧ Result.isOk h 17 = false).
Proof. vm_compute. by repeat split. Qed.

(** What the three adapters do with a thrown value in general: when the
    caller-supplied computation throws (or rejects with) [e], no adapter
    re-throws.  [Result.from] and [Result.fromAsync] return a new container
    that holds [e] itself, and [isErr()] on it is truthy exactly when [e] is
    error-like; the standalone adapter does the same unless [e] is a string,
    which it wraps into a new [Error] with that message, a failure. *)
Theorem capture_adapters_never_rethrow
    (fn : M value) (afn : M promise) (p : promise) (h h1 : heap) (e : value) :
  fn h = (Abrupt e, h1) →
  (afn ≫= await) h = (Abrupt e, h1) →
  p h = (Abrupt e, h1) →
  let r := length h1 in
  let h2 := h1 ++ [Obj (Some Realm.Result_prototype) None {[ "val" := e ]}] in
  Result.from fn h = (Normal (VRef r), h2)
  ∧ Result.fromAsync afn h = (Normal (VRef r), h2)
  ∧ is_Result h2 r e
  ∧ ToBoolean (Result.isErr h2 r) = error_like h2 e
  ∧ match e with
    | VStr s =>
        let h3 := h1 ++ [Obj (Some Realm.Error_prototype) None {[ "message" := VStr s ]};
                         Obj (Some Realm.Result_prototype) None {[ "val" := VRef r ]}] in
        async p h = (Normal (VRef (S r)), h3)
        ∧ Get h3 r "message" = VStr s
        ∧ ToBoolean (Result.isErr h3 (S r)) = true
    | _ => async p h = (Normal (VRef r), h2)
    end.
Proof.
  intros Hfn Hafn Hp r h2. subst r h2.
  split; [|split; [|split; [|split]]].
  - unfold Result.from, try_catch. by rewrite (bind_abrupt _ _ _ _ _ Hfn).
  - unfold Result.fromAsync, async_function, try_catch.
    unfold await, mbind, M_bind in *.
    destruct (afn h) as [[q|e'] h0].
    + destruct (q h0) as [[v|e'] h0']; [done|]. by simplify_eq.
    + by simplify_eq.
  - apply lookup_alloc.
  - rewrite isErr_truthy. unfold Result.val. by rewrite Get_val_alloc.
  - assert (∀ v, (∀ s, v ≠ VStr s) → v = e →
              async p h =
              (Normal (VRef (length h1)),
               h1 ++ [Obj (Some Realm.Result_prototype) None {[ "val" := e ]}]))
      as Hother.
    { intros v Hv ->. unfold async, async_function, try_catch, await.
      rewrite (bind_abrupt _ _ _ _ _ Hp). by apply Err_other. }
    destruct e; try solve [eapply Hother; [|reflexivity]; done].
    split; [|split].
    + unfold async, async_function, try_catch, await.
      rewrite (bind_abrupt _ _ _ _ _ Hp). apply Err_string.
    + eapply (Get_own _ _ (Obj (Some Realm.Error_prototype) None
                                 {[ "message" := VStr s ]})); [|done].
      apply lookup_alloc_first.
    + apply isErr_of_new_Error.
Qed.

(** The premises hold for the computation that throws ["x"] in the realm. *)
Lemma capture_adapters_never_rethrow_witness :
  let '(c, h) := Result.from throw_string Realm.intrinsics in
  c = Normal (VRef 16) ∧ ToBoolean (Result.isErr h 16) = error_like h (VStr "x").
Proof.
  pose proof (capture_adapters_never_rethrow
                throw_string (mret throw_string) throw_string
                Realm.intrinsics Realm.intrinsics (VStr "x")
                eq_refl eq_refl eq_refl) as (Hfrom & _ & _ & Hcls & _).
  simpl in Hfrom. rewrite Hfrom. split; [reflexivity | exact Hcls].
Defined.

Lemma realm_lookup h l o : realm h → Realm.intrinsics !! l = Some o → h !! l = Some o.
Proof. intros Hrealm Hl. by eapply prefix_lookup_Some. Qed.

Lemma Get_inherited h l o p po key v :
  h !! l = Some o → props o !! key = None → proto o = Some p →
  h !! p = Some po → props po !! key = Some v →
  l ≠ p →
  Get h l key = v.
Proof.
  intros Hl Hk Hp Hpo Hv Hne. unfold Get.
  assert (2 ≤ length h) as Hlen.
  { apply lookup_lt_Some in Hl. apply lookup_lt_Some in Hpo. lia. }
  destruct (length h) as [|[|n]]; [lia..|].
  simpl. by rewrite Hl, Hk, Hp, Hpo, Hv.
Qed.

(** ** Extraction in the matching state, and [partition] *)

Section Extraction.
Context {host : Host}.

Lemma unwrap_ok h this :
  ToBoolean (Result.isErr h this) = false →
  Result.unwrap this h = (Normal (Result.val h this), h).
Proof. intros He. unfold Result.unwrap. rewrite bind_read, He. reflexivity. Qed.

Lemma unwrapErr_err h this :
  Result.isOk h this = false →
  Result.unwrapErr this h = (Normal (Result.val h this), h).
Proof. intros Ho. unfold Result.unwrapErr. rewrite bind_read, Ho. reflexivity. Qed.

(** On a container of class [Result] the three method calls of [partition]
    find the methods of the class. *)
Lemma invoke_on_Result h x v :
  realm h → is_Result h x v →
  Result.invoke (VRef x) "isOk" h = (Normal (VBool (Result.isOk h x)), h)
  ∧ Result.invoke (VRef x) "unwrap" h = Result.unwrap x h
  ∧ Result.invoke (VRef x) "unwrapErr" h = Result.unwrapErr x h.
Proof.
  intros Hrealm Hx.
  pose proof (realm_lookup h 9 _ Hrealm eq_refl) as Hproto.
  pose proof (realm_lookup h 12 _ Hrealm eq_refl) as HisOk.
  pose proof (realm_lookup h 14 _ Hrealm eq_refl) as Hunwrap.
  pose proof (realm_lookup h 15 _ Hrealm eq_refl) as HunwrapErr.
  assert (x ≠ 9) as Hne.
  { intros ->. unfold is_Result in Hx. rewrite Hproto in Hx. by simplify_eq. }
  split; [|split]; unfold Result.invoke; rewrite bind_read.
  - rewrite (Get_inherited h x _ 9 _ "isOk" (VRef 12) Hx) by done.
    unfold Result.call_function. rewrite bind_read, HisOk. reflexivity.
  - rewrite (Get_inherited h x _ 9 _ "unwrap" (VRef 14) Hx) by done.
    unfold Result.call_function. rewrite bind_read, Hunwrap. reflexivity.
  - rewrite (Get_inherited h x _ 9 _ "unwrapErr" (VRef 15) Hx) by done.
    unfold Result.call_function. rewrite bind_read, HunwrapErr. reflexivity.
Qed.

Lemma partition_from acc h (xs : list loc) :
  realm h → Forall (λ x, ∃ v, is_Result h x v) xs →
  reduce (λ acc e,
            succeeded ← Result.invoke e "isOk";
            if ToBoolean succeeded then
              v ← Result.invoke e "unwrap";
              mret (Partition.Make (Partition.ok acc ++ [v]) (Partition.err acc))
            else
              v ← Result.invoke e "unwrapErr";
              mret (Partition.Make (Partition.ok acc) (Partition.err acc ++ [v])))
         (VRef <$> xs) acc h
  = (Normal (Partition.Make
               (Partition.ok acc ++ (Result.val h <$> List.filter (Result.isOk h) xs))
               (Partition.err acc
                  ++ (Result.val h <$> List.filter (λ e, negb (Result.isOk h e)) xs))),
     h).
Proof.
  intros Hrealm Hxs. revert acc.
  induction Hxs as [|x xs [v Hx] Hxs IH]; intros acc.
  - simpl. unfold mret, M_ret. rewrite !app_nil_r. by destruct acc.
  - destruct (invoke_on_Result h x v Hrealm Hx) as (HisOk & Hunwrap & HunwrapErr).
    rewrite fmap_cons. cbn [reduce].
    unfold mbind at 1, M_bind at 1. unfold mbind at 1, M_bind at 1.
    rewrite HisOk. cbn [ToBoolean List.filter].
    destruct (Result.isOk h x) eqn:Hok; cbn [negb].
    + unfold mbind at 1, M_bind at 1. rewrite Hunwrap, unwrap_ok.
      2:{ rewrite isOk_not_isErr in Hok. by destruct (ToBoolean (Result.isErr h x)). }
      unfold mret at 1, M_ret at 1.
      rewrite IH. cbn. by rewrite <- app_assoc.
    + unfold mbind at 1, M_bind at 1. rewrite HunwrapErr, unwrapErr_err by done.
      unfold mret at 1, M_ret at 1.
      rewrite IH. cbn. by rewrite <- app_assoc.
Qed.

(** C6: on an array [xs] of [Result] containers, [Result.partition(xs)]
    walks [xs] once and returns the contents of the success-classified
    elements and of the failure-classified elements, each in the order of
    [xs] and each element exactly once; the empty array gives two empty
    arrays; [[Ok(2), Ok(16), Err("boom")]] gives [[2, 16]] and one error with
    the message ["boom"]. *)
Theorem partition_keeps_order (h : heap) (xs : list loc) :
  realm h →
  Forall (λ x, ∃ v, is_Result h x v) xs →
  let oks := List.filter (Result.isOk h) xs in
  let errs := List.filter (λ e, negb (Result.isOk h e)) xs in
  Result.partition (VRef <$> xs) h
  = (Normal (Partition.Make (Result.val h <$> oks) (Result.val h <$> errs)), h)
  ∧ length oks + length errs = length xs
  ∧ Result.partition [] h = (Normal (Partition.Make [] []), h)
  ∧ (∃ e h', (Ok_Ok_Err ≫= Result.partition) Realm.intrinsics
             = (Normal (Partition.Make [VNum 2; VNum 16] [VRef e]), h')
             ∧ Get h' e "message" = VStr "boom").
Proof.
  intros Hrealm Hxs oks errs. split; [|split; [|split]].
  - unfold Result.partition. by rewrite partition_from.
  - subst oks errs. clear Hxs. induction xs as [|x xs IH]; [done|].
    cbn [List.filter]. destruct (Result.isOk h x); simpl; lia.
  - reflexivity.
  - exists 18. eexists. split; vm_compute; reflexivity.
Qed.

End Extraction.

(** The premises hold for [[Err(new Error("x")), Ok(1)]]. *)
Lemma partition_keeps_order_witness :
  Result.partition (host := plain_host) [VRef 17; VRef 18] heap_with_all
  = (Normal (Partition.Make [VNum 1] [VRef 16]), heap_with_all).
Proof.
  assert (realm heap_with_all) as Hrealm by (by eexists).
  assert (Forall (λ x, ∃ v, is_Result heap_with_all x v) [17; 18]) as Hxs.
  { repeat constructor; [by exists (VRef 16) | by exists (VNum 1)]. }
  destruct (partition_keeps_order (host := plain_host) heap_with_all [17; 18] Hrealm Hxs)
    as (Hrun & _).
  exact Hrun.
Defined.

(** ** Which operations can complete abruptly *)

Lemma returns_ret {A} (a : A) h : returns (mret a) h.
Proof. by eexists _, _. Qed.

Lemma returns_read {A} (g : heap → A) h : returns (read g) h.
Proof. by eexists _, _. Qed.

Lemma returns_alloc o h : returns (alloc o) h.
Proof. by eexists _, _. Qed.

Lemma returns_bind {A B} (m : M A) (f : A → M B) h :
  returns m h → (∀ a h', returns (f a) h') → returns (m ≫= f) h.
Proof.
  intros (a & h' & Hm) Hf. unfold returns.
  rewrite (bind_normal _ _ _ _ _ Hm). apply Hf.
Qed.

Lemma raises_throw {A} (v : value) h : raises (mthrow v : M A) h.
Proof. by eexists _, _. Qed.

Lemma raises_bind {A B} (m : M A) (f : A → M B) h :
  (∀ a h', raises (f a) h') → raises (m ≫= f) h.
Proof.
  intros Hf. unfold raises. destruct (m h) as [[a|e] h'] eqn:Hm.
  - rewrite (bind_normal _ _ _ _ _ Hm). apply Hf.
  - rewrite (bind_abrupt _ _ _ _ _ Hm). by eexists _, _.
Qed.

Lemma raises_first {A B} (m : M A) (f : A → M B) h :
  raises m h → raises (m ≫= f) h.
Proof.
  intros (e & h' & Hm). unfold raises.
  rewrite (bind_abrupt _ _ _ _ _ Hm). by eexists _, _.
Qed.

Lemma raises_read {A B} (g : heap → A) (f : A → M B) h :
  raises (f (g h)) h → raises (read g ≫= f) h.
Proof. done. Qed.

Lemma returns_Factory h v :
  returns (Factory.Ok v) h ∧ returns (Factory.Err v) h
  ∧ returns (Factory.Some v) h ∧ returns Factory.None h.
Proof.
  repeat split; try by eexists _, _.
  unfold Factory.Err, returns. rewrite bind_read.
  destruct (String.eqb (typeof h v) "string"); [destruct v|]; by eexists _, _.
Qed.

Ltac returns_steps :=
  repeat first
    [ apply returns_ret | apply returns_read | apply returns_alloc
    | apply returns_Factory
    | apply returns_bind; [|intros ? ?]
    | match goal with
      | H : total _ |- _ => apply H
      | H : ∀ h, returns _ h |- _ => apply H
      | |- returns (if ?b then _ else _) _ => destruct b
      end ].

Section Raising.
Context {host : Host}.

Lemma formatError_raises this err h : raises (Result.formatError this err) h.
Proof.
  unfold Result.formatError.
  repeat (apply raises_bind; intros ? ?). apply raises_throw.
Qed.

Lemma Result_unchecked_raise h this msg :
  (ToBoolean (Result.isErr h this) = true →
     raises (Result.unwrap this) h ∧ raises (Result.expect this msg) h
     ∧ raises (Result.throw this) h)
  ∧ (Result.isOk h this = true →
       raises (Result.unwrapErr this) h ∧ raises (Result.expectErr this msg) h).
Proof.
  split.
  - intros He. repeat split.
    + unfold Result.unwrap. apply raises_read. rewrite He.
      apply raises_first. apply raises_bind; intros ? ?.
      apply raises_bind; intros ? ?. apply raises_bind; intros ? ?.
      apply raises_bind; intros ? ?. apply formatError_raises.
    + unfold Result.expect. apply raises_read. rewrite He.
      apply raises_first. apply raises_bind; intros ? ?. apply formatError_raises.
    + unfold Result.throw. apply raises_read. rewrite He.
      apply raises_bind; intros ? ?. apply raises_throw.
  - intros Ho. split.
    + unfold Result.unwrapErr. apply raises_read. rewrite Ho.
      apply raises_first. repeat (apply raises_bind; intros ? ?).
      apply raises_throw.
    + unfold Result.expectErr. apply raises_read. rewrite Ho.
      apply raises_first. apply raises_bind; intros ? ?. apply formatError_raises.
Qed.

Lemma Result_checked_returns (op : ResultOp.t) h this :
  ResultOp.callback total op → ResultOp.unchecked op = false →
  returns (ResultOp.run op this) h.
Proof.
  intros Hfn Hop. destruct op; try discriminate; simpl in *;
    unfold Result.unwrapOr, Result.unwrapOrElse, Result.map, Result.mapErr,
      Result.mapOr, Result.or, Result.ok, Result.peek, Result.flatten, new_Result;
    returns_steps.
Qed.

End Raising.

Lemma Option_unchecked_raise h this msg :
  Option.isNone h this = true →
  raises (Option.unwrap this) h ∧ raises (Option.expect this msg) h.
Proof.
  intros Hn. split.
  - unfold Option.unwrap. apply raises_read. rewrite Hn.
    apply raises_first. apply raises_bind; intros ? ?. apply raises_throw.
  - unfold Option.expect. apply raises_read. rewrite Hn.
    apply raises_first. apply raises_bind; intros ? ?. apply raises_throw.
Qed.

Lemma Option_checked_returns (op : OptionOp.t) h this :
  OptionOp.callback total op → OptionOp.unchecked op = false →
  returns (OptionOp.run op this) h.
Proof.
  intros Hfn Hop. destruct op; try discriminate; simpl in *;
    unfold Option.unwrapOr, Option.unwrapOrElse, Option.map, Option.mapOr,
      Option.or, Option.okOr, Option.peek, Option.flatten, new_Option;
    returns_steps.
  exact VUndefined.
Qed.

(** C5: on a container of either class and with total function arguments,
    the combinators [map], [mapErr], [mapOr], [unwrapOr], [unwrapOrElse],
    [or], [ok], [okOr] and [flatten] complete normally, whether the
    container is a success or a failure, present or absent; an operation
    that completes abruptly is one of [unwrap], [unwrapErr], [expect],
    [expectErr] and [throw], and each of those does so in the state it does
    not match. *)
Theorem combinators_never_throw {host : Host}
    (h : heap) (r o : loc) (v w : value)
    (rop : ResultOp.t) (oop : OptionOp.t) (msg : string) :
  realm h →
  is_Result h r v →
  is_Option h o w →
  ResultOp.callback total rop →
  OptionOp.callback total oop →
  (ResultOp.combinator rop = true → returns (ResultOp.run rop r) h)
  ∧ (OptionOp.combinator oop = true → returns (OptionOp.run oop o) h)
  ∧ (raises (ResultOp.run rop r) h → ResultOp.unchecked rop = true)
  ∧ (raises (OptionOp.run oop o) h → OptionOp.unchecked oop = true)
  ∧ (ToBoolean (Result.isErr h r) = true →
       raises (Result.unwrap r) h ∧ raises (Result.expect r msg) h
       ∧ raises (Result.throw r) h)
  ∧ (Result.isOk h r = true →
       raises (Result.unwrapErr r) h ∧ raises (Result.expectErr r msg) h)
  ∧ (Option.isNone h o = true →
       raises (Option.unwrap o) h ∧ raises (Option.expect o msg) h).
Proof.
  intros _ _ _ Hr Ho.
  split; [|split; [|split; [|split; [|split; [|split]]]]].
  - intros Hc. apply Result_checked_returns; [done|]. by destruct rop.
  - intros Hc. apply Option_checked_returns; [done|]. by destruct oop.
  - intros Hraise. destruct (ResultOp.unchecked rop) eqn:Hu; [done|].
    by destruct (returns_not_raises _ _ (Result_checked_returns rop h r Hr Hu)).
  - intros Hraise. destruct (OptionOp.unchecked oop) eqn:Hu; [done|].
    by destruct (returns_not_raises _ _ (Option_checked_returns oop h o Ho Hu)).
  - apply Result_unchecked_raise.
  - apply Result_unchecked_raise.
  - apply Option_unchecked_raise.
Qed.

(** The premises hold for [Err(new Error("x"))] and [None()] with the
    identity function: [map] returns on both, [unwrap] throws on both. *)
Lemma combinators_never_throw_witness :
  returns (ResultOp.run (host := plain_host) (ResultOp.map identity) 17) heap_with_all
  ∧ returns (OptionOp.run (OptionOp.map identity) 20) heap_with_all
  ∧ raises (Result.unwrap (host := plain_host) 17) heap_with_all
  ∧ raises (Option.unwrap 20) heap_with_all.
Proof.
  assert (total identity) as Ht by (intros v h; eexists _, _; reflexivity).
  assert (realm heap_with_all) as Hrealm by (by eexists).
  destruct (combinators_never_throw (host := plain_host) heap_with_all 17 20
              (VRef 16) none (ResultOp.map identity) (OptionOp.map identity)
              EmptyString Hrealm eq_refl eq_refl Ht Ht)
    as (Hr & Ho & _ & _ & He & _ & Hn).
  split; [apply Hr; reflexivity|]. split; [apply Ho; reflexivity|].
  split; [apply He; reflexivity | apply Hn; reflexivity].
Defined.

(** ** Frames: what an operation leaves alone *)

Lemma untouched_ret {A} l (a : A) : untouched l (mret a).
Proof. by intros h o Hl. Qed.

Lemma untouched_read {A} l (g : heap → A) : untouched l (read g).
Proof. by intros h o Hl. Qed.

Lemma untouched_throw {A} l (v : value) : untouched l (mthrow v : M A).
Proof. by intros h o Hl. Qed.

Lemma untouched_alloc l o : untouched l (alloc o).
Proof. intros h o' Hl. simpl. by apply lookup_alloc_old. Qed.

Lemma untouched_bind {A B} l (m : M A) (f : A → M B) :
  untouched l m → (∀ a, untouched l (f a)) → untouched l (m ≫= f).
Proof.
  intros Hm Hf h o Hl. specialize (Hm h o Hl).
  unfold mbind, M_bind. destruct (m h) as [[a|e] h']; simpl in *; [|done].
  by apply Hf.
Qed.

(** The location a new object gets is not the one of an existing object. *)
Lemma untouched_alloc_bind {B} l o (f : loc → M B) :
  (∀ e, e ≠ l → untouched l (f e)) → untouched l (alloc o ≫= f).
Proof.
  intros Hf h o' Hl. unfold mbind, M_bind, alloc.
  apply Hf.
  - apply lookup_lt_Some in Hl. lia.
  - by apply lookup_alloc_old.
Qed.

Lemma untouched_set_prop l target key v :
  target ≠ l → untouched l (set_prop target key v).
Proof.
  intros Hne h o Hl. unfold set_prop. simpl.
  destruct (h !! target); [|done]. by rewrite list_lookup_insert_ne.
Qed.

Lemma untouched_TypeError {A} l msg : untouched l (throw_TypeError msg : M A).
Proof.
  unfold throw_TypeError. apply untouched_bind; [apply untouched_alloc|].
  intros e. apply untouched_throw.
Qed.

Lemma untouched_GetV l v key : untouched l (GetV v key).
Proof.
  destruct v; simpl;
    first [apply untouched_TypeError | apply untouched_read | apply untouched_ret].
Qed.

Lemma untouched_Factory l v :
  untouched l (Factory.Ok v) ∧ untouched l (Factory.Err v)
  ∧ untouched l (Factory.Some v) ∧ untouched l Factory.None.
Proof.
  assert (∀ o, untouched l (e ← alloc o; mret (VRef e))) as Hnew.
  { intros o. apply untouched_bind; [apply untouched_alloc|].
    intros e. apply untouched_ret. }
  repeat split; try apply Hnew.
  unfold Factory.Err. apply untouched_bind; [apply untouched_read|]. intros ty.
  destruct (String.eqb ty "string"); [destruct v|]; try apply Hnew.
  apply untouched_bind; [apply untouched_alloc|]. intros e. apply Hnew.
Qed.

Ltac untouched_steps :=
  repeat first
    [ apply untouched_ret | apply untouched_read | apply untouched_throw
    | apply untouched_alloc | apply untouched_TypeError | apply untouched_GetV
    | apply untouched_Factory
    | match goal with
      | H : ∀ v, untouched _ (_ v) |- _ => apply H
      | H : untouched _ ?m |- untouched _ ?m => exact H
      | |- untouched _ (if ?b then _ else _) => destruct b
      end
    | apply untouched_bind; [|intros ?] ].

Section Frames.
Context {host : Host}.

Lemma untouched_ToString l v :
  host_untouched host l → untouched l (ToString v).
Proof.
  intros (Htext & _ & _).
  destruct v as [| |[]| | | | | |]; simpl;
    first [apply untouched_ret | apply untouched_TypeError | apply Htext].
Qed.

Lemma untouched_formatError l this err :
  host_untouched host l → err ≠ l → untouched l (Result.formatError this err).
Proof.
  intros Hhost Herr. pose proof Hhost as (_ & Hindent & _).
  unfold Result.formatError.
  apply untouched_bind; [apply untouched_read|]. intros m.
  apply untouched_bind; [by apply untouched_ToString|]. intros head.
  apply untouched_bind; [apply untouched_read|]. intros v.
  apply untouched_bind; [apply untouched_GetV|]. intros stack.
  apply untouched_bind.
  { destruct (ToBoolean stack).
    - apply untouched_bind; [apply Hindent|]. intros s. apply untouched_ret.
    - apply untouched_bind; [apply untouched_GetV|]. intros msg.
      by apply untouched_ToString. }
  intros detail.
  apply untouched_bind; [by apply untouched_set_prop|]. intros _.
  apply untouched_throw.
Qed.

Lemma untouched_Result_op l this (op : ResultOp.t) :
  host_untouched host l →
  ResultOp.callback (λ fn, ∀ v, untouched l (fn v)) op →
  untouched l (ResultOp.run op this).
Proof.
  intros Hhost Hfn.
  assert (∀ msg, untouched l (e ← new_Error msg; Result.formatError this e)) as Hfail.
  { intros msg. apply untouched_alloc_bind. intros e He.
    by apply untouched_formatError. }
  destruct op; simpl in *.
  - unfold Result.expect.
    apply untouched_bind; [apply untouched_read|]. intros failed.
    apply untouched_bind; [|intros ?; apply untouched_read].
    destruct (ToBoolean failed); [apply Hfail | apply untouched_ret].
  - unfold Result.expectErr.
    apply untouched_bind; [apply untouched_read|]. intros succeeded.
    apply untouched_bind; [|intros ?; apply untouched_read].
    destruct succeeded; [apply Hfail | apply untouched_ret].
  - unfold Result.unwrap.
    apply untouched_bind; [apply untouched_read|]. intros failed.
    apply untouched_bind; [|intros ?; apply untouched_read].
    destruct (ToBoolean failed); [|apply untouched_ret].
    apply untouched_bind; [apply untouched_read|]. intros v.
    apply untouched_bind; [apply untouched_GetV|]. intros n.
    apply untouched_bind; [by apply untouched_ToString|]. intros name.
    apply Hfail.
  - unfold Result.unwrapErr.
    apply untouched_bind; [apply untouched_read|]. intros succeeded.
    apply untouched_bind; [|intros ?; apply untouched_read].
    destruct succeeded; [|apply untouched_ret].
    apply untouched_bind; [apply untouched_read|]. intros v.
    apply untouched_bind; [by apply untouched_ToString|]. intros text.
    unfold new_Error. untouched_steps.
  - unfold Result.unwrapOr. untouched_steps.
  - unfold Result.unwrapOrElse. untouched_steps.
  - unfold Result.map, new_Result. untouched_steps.
  - unfold Result.mapErr, new_Result. untouched_steps.
  - unfold Result.mapOr. untouched_steps.
  - unfold Result.or. untouched_steps.
  - unfold Result.ok. untouched_steps.
  - unfold Result.peek. untouched_steps.
  - unfold Result.throw. untouched_steps.
  - unfold Result.flatten. untouched_steps.
Qed.

End Frames.

Lemma untouched_Option_op l this (op : OptionOp.t) :
  OptionOp.callback (λ fn, ∀ v, untouched l (fn v)) op →
  untouched l (OptionOp.run op this).
Proof.
  intros Hfn. destruct op; simpl in *.
  - unfold Option.expect, new_Error. untouched_steps.
  - unfold Option.unwrap, new_Error. untouched_steps.
  - unfold Option.unwrapOr. untouched_steps.
  - unfold Option.unwrapOrElse. untouched_steps. apply (Hfn VUndefined).
  - unfold Option.map, new_Option. untouched_steps.
  - unfold Option.mapOr. untouched_steps.
  - unfold Option.or. untouched_steps.
  - unfold Option.okOr. untouched_steps.
  - unfold Option.peek. untouched_steps.
  - unfold Option.flatten. untouched_steps.
Qed.

Lemma Factory_new h v :
  (Factory.Ok v h
   = (Normal (VRef (length h)),
      h ++ [Obj (Some Realm.Result_prototype) None {[ "val" := v ]}]))
  ∧ (Factory.Some v h
     = (Normal (VRef (length h)),
        h ++ [Obj (Some Realm.Option_prototype) None {[ "val" := v ]}]))
  ∧ (Factory.None h
     = (Normal (VRef (length h)),
        h ++ [Obj (Some Realm.Option_prototype) None {[ "val" := none ]}])).
Proof. by repeat split. Qed.

Lemma string_or_not (v : value) : (∃ s, v = VStr s) ∨ (∀ s, v ≠ VStr s).
Proof. destruct v; try (by right); left; by eexists. Qed.

(** C9, as stated, fails: [Err("x").map(fn)] returns the receiver itself,
    not a new container. *)
Lemma map_on_failure_returns_receiver :
  let '(c, h) := Factory.Err (VStr "x") Realm.intrinsics in
  c = Normal (VRef 17)
  ∧ Result.map 17 identity h = (Normal (VRef 17), h).
Proof. vm_compute. by split. Qed.

(** C9, amended: no operation of either class changes an existing object
    (the receiver included) as long as the function arguments and the host do
    not.  The combinators return a new container exactly when they transform
    or convert ([map] on a success or a present value, [mapErr] on a failure,
    [ok], [okOr]); otherwise they return an existing one: [map] on a failure
    or an absent value and [mapErr] on a success return the receiver itself,
    [or] returns the receiver or its argument, and [flatten] returns the
    receiver or the container it holds. *)
Theorem containers_are_immutable {host : Host}
    (h : heap) (l this : loc) (rop : ResultOp.t) (oop : OptionOp.t)
    (fn : value → M value) (alt err : value) :
  host_untouched host l →
  ResultOp.callback (λ fn, ∀ v, untouched l (fn v)) rop →
  OptionOp.callback (λ fn, ∀ v, untouched l (fn v)) oop →
  untouched l (ResultOp.run rop this)
  ∧ untouched l (OptionOp.run oop this)
  ∧ Result.map this fn h
    = (if Result.isOk h this then (fn (Result.val h this) ≫= Factory.Ok) h
       else (Normal (VRef this), h))
  ∧ Result.mapErr this fn h
    = (if Result.isOk h this then (Normal (VRef this), h)
       else (fn (Result.val h this) ≫= Factory.Ok) h)
  ∧ Result.or this alt h
    = (Normal (if Result.isOk h this then VRef this else alt), h)
  ∧ Result.flatten this h
    = (Normal (if instanceof h (Result.val h this) Realm.Result_prototype
               then Result.val h this else VRef this), h)
  ∧ Result.ok this h
    = (if Result.isOk h this then Factory.Some (Result.val h this) h
       else Factory.None h)
  ∧ Option.map this fn h
    = (if Option.isSome h this then (fn (Option.val h this) ≫= Factory.Some) h
       else (Normal (VRef this), h))
  ∧ Option.or this alt h
    = (Normal (if Option.isSome h this then VRef this else alt), h)
  ∧ Option.flatten this h
    = (Normal (if instanceof h (Option.val h this) Realm.Option_prototype
               then Option.val h this else VRef this), h)
  ∧ Option.okOr this err h
    = (if Option.isSome h this then Factory.Ok (Option.val h this) h
       else Factory.Err err h)
  ∧ (let new (c : completion value * heap) :=
       ∃ r, c.1 = Normal (VRef r) ∧ h !! r = None ∧ is_Some (c.2 !! r) in
     new (Factory.Ok alt h) ∧ new (Factory.Err err h)
     ∧ new (Factory.Some alt h) ∧ new (Factory.None h)).
Proof.
  intros Hhost Hr Ho.
  split; [by apply untouched_Result_op|].
  split; [by apply untouched_Option_op|].
  split. { unfold Result.map. rewrite bind_read. by destruct (Result.isOk h this). }
  split. { unfold Result.mapErr. rewrite bind_read. by destruct (Result.isOk h this). }
  split. { unfold Result.or. rewrite bind_read. by destruct (Result.isOk h this). }
  split.
  { unfold Result.flatten. rewrite !bind_read.
    by destruct (instanceof h (Result.val h this) Realm.Result_prototype). }
  split. { unfold Result.ok. rewrite bind_read. by destruct (Result.isOk h this). }
  split. { unfold Option.map. rewrite bind_read. by destruct (Option.isSome h this). }
  split. { unfold Option.or. rewrite bind_read. by destruct (Option.isSome h this). }
  split.
  { unfold Option.flatten. rewrite !bind_read.
    by destruct (instanceof h (Option.val h this) Realm.Option_prototype). }
  split. { unfold Option.okOr. rewrite bind_read. by destruct (Option.isSome h this). }
  intros new.
  assert (∀ o, new (Normal (VRef (length h)), h ++ [o])) as Hnew.
  { intros o. exists (length h). split; [done|]. split.
    - apply lookup_ge_None. lia.
    - simpl. rewrite lookup_alloc. by eexists. }
  destruct (Factory_new h alt) as (-> & -> & _).
  destruct (Factory_new h VNull) as (_ & _ & ->).
  repeat split; try by apply Hnew.
  destruct (string_or_not err) as [[s ->]|Hv].
  - rewrite Err_string. exists (S (length h)). split; [done|]. split.
    + apply lookup_ge_None. lia.
    + simpl. rewrite lookup_alloc_next. by eexists.
  - rewrite Err_other by done. by apply Hnew.
Qed.

(** The premises hold for the plain host and [map] with the identity function. *)
Lemma containers_are_immutable_witness :
  host_untouched plain_host 0
  ∧ untouched 0 (ResultOp.run (host := plain_host) (ResultOp.map identity) 16).
Proof.
  assert (host_untouched plain_host 0) as Hhost
    by (repeat split; intros; intros h o Hl; exact Hl).
  split; [exact Hhost|].
  apply (containers_are_immutable (host := plain_host) Realm.intrinsics 0 16
           (ResultOp.map identity) (OptionOp.map identity) identity VNull VNull
           Hhost);
    intros v h o Hl; exact Hl.
Defined.

(** ** Prototype chains do not depend on later allocations *)

Lemma in_chain_sound n h t l :
  in_proto_chain n h t l = true → ∃ ps, chain_to h t l ps ∧ length ps ≤ n.
Proof.
  revert l. induction n as [|n IH]; intros l; [done|]. simpl.
  destruct (h !! l) as [o|] eqn:Hl; [|done].
  destruct (proto o) as [p|] eqn:Hp; [|done].
  destruct (decide (p = t)) as [->|Hne].
  - intros _. exists [l]. split; [by eapply chain_last | simpl; lia].
  - intros (ps & Hps & Hlen)%IH. exists (l :: ps).
    split; [by eapply chain_next | simpl; lia].
Qed.

Lemma in_chain_complete n h t l ps :
  chain_to h t l ps → length ps ≤ n → in_proto_chain n h t l = true.
Proof.
  intros Hps. revert n.
  induction Hps as [l o Hl Hp | l o p ps Hl Hp Hne Hps IH]; intros n Hn.
  - destruct n as [|n]; [simpl in Hn; lia|].
    simpl. rewrite Hl, Hp. by rewrite decide_True.
  - destruct n as [|n]; [simpl in Hn; lia|].
    simpl. rewrite Hl, Hp. rewrite decide_False by done.
    apply IH. simpl in Hn. lia.
Qed.

Lemma chain_to_unique h t l ps ps' :
  chain_to h t l ps → chain_to h t l ps' → ps = ps'.
Proof.
  intros Hps. revert ps'.
  induction Hps as [l o Hl Hp | l o p ps Hl Hp Hne Hps IH]; intros ps' Hps'.
  - inversion Hps'; simplify_eq; done.
  - inversion Hps'; simplify_eq; try done. f_equal. by apply IH.
Qed.

Lemma chain_to_suffix h t l ps a x b :
  chain_to h t l ps → ps = a ++ x :: b → chain_to h t x (x :: b).
Proof.
  intros Hps. revert a.
  induction Hps as [l o Hl Hp | l o p ps Hl Hp Hne Hps IH]; intros a Heq.
  - destruct a as [|y [|z a]]; simplify_eq/=. by eapply chain_last.
  - destruct a as [|y a]; simplify_eq/=.
    + by eapply chain_next.
    + by eapply IH.
Qed.

Lemma chain_to_NoDup h t l ps : chain_to h t l ps → NoDup ps.
Proof.
  induction 1 as [l o Hl Hp | l o p ps Hl Hp Hne Hps IH].
  - apply NoDup_singleton.
  - apply NoDup_cons. split; [|done].
    intros (a & b & Heq)%list_elem_of_split.
    pose proof (chain_to_suffix _ _ _ _ _ _ _ Hps Heq) as Hsuf.
    assert (chain_to h t l (l :: ps)) as Hall by by eapply chain_next.
    pose proof (chain_to_unique _ _ _ _ _ Hsuf Hall) as Hlen%(f_equal length).
    rewrite Heq in Hlen. simpl in Hlen. rewrite length_app in Hlen.
    simpl in Hlen. lia.
Qed.

Lemma chain_to_in_heap h t l ps x : chain_to h t l ps → x ∈ ps → x < length h.
Proof.
  induction 1 as [l o Hl Hp | l o p ps Hl Hp Hne Hps IH].
  - intros ->%list_elem_of_singleton. by eapply lookup_lt_Some.
  - intros [->|Hx]%elem_of_cons; [by eapply lookup_lt_Some | by apply IH].
Qed.

Lemma chain_to_short h t l ps : chain_to h t l ps → length ps ≤ length h.
Proof.
  intros Hps.
  assert (ps ⊆+ seq 0 (length h)) as Hsub.
  { apply NoDup_submseteq; [by eapply chain_to_NoDup|].
    intros x Hx. apply elem_of_seq.
    pose proof (chain_to_in_heap _ _ _ _ _ Hps Hx). lia. }
  apply submseteq_length in Hsub. by rewrite length_seq in Hsub.
Qed.

Lemma chain_to_extend h k t l ps : chain_to h t l ps → chain_to (h ++ k) t l ps.
Proof.
  induction 1 as [l o Hl Hp | l o p ps Hl Hp Hne Hps IH].
  - eapply chain_last; [|done]. by apply lookup_app_l_Some.
  - eapply chain_next; [|done..]. by apply lookup_app_l_Some.
Qed.

Lemma chain_to_restrict h k t l ps :
  closed h → l < length h → chain_to (h ++ k) t l ps → chain_to h t l ps.
Proof.
  intros Hclosed Hlt Hps.
  induction Hps as [l o Hl Hp | l o p ps Hl Hp Hne Hps IH].
  - rewrite lookup_app_l in Hl by done. by eapply chain_last.
  - rewrite lookup_app_l in Hl by done.
    eapply chain_next; [done..|]. apply IH. by eapply Hclosed.
Qed.

Lemma isPrototypeOf_extend h k t v :
  isPrototypeOf h t v = true → isPrototypeOf (h ++ k) t v = true.
Proof.
  destruct v; try done. simpl.
  intros (ps & Hps & Hlen)%in_chain_sound.
  eapply in_chain_complete; [by apply chain_to_extend|].
  rewrite length_app. lia.
Qed.

Lemma isPrototypeOf_stable h k t v :
  closed h → valid h v → isPrototypeOf (h ++ k) t v = isPrototypeOf h t v.
Proof.
  intros Hclosed Hv.
  destruct (isPrototypeOf h t v) eqn:Hh; [by apply isPrototypeOf_extend|].
  destruct (isPrototypeOf (h ++ k) t v) eqn:Hk; [|done].
  destruct v; try done. simpl in *.
  apply in_chain_sound in Hk as (ps & Hps & _).
  apply chain_to_restrict in Hps; [|done..].
  rewrite (in_chain_complete _ _ _ _ _ Hps) in Hh; [done|].
  by eapply chain_to_short.
Qed.

Lemma is_plain_object_stable h k v :
  valid h v → is_plain_object (h ++ k) v = is_plain_object h v.
Proof. destruct v; try done. simpl. intros Hl. by rewrite lookup_app_l. Qed.

Lemma error_like_stable h k v :
  closed h → valid h v → error_like (h ++ k) v = error_like h v.
Proof.
  intros Hclosed Hv. unfold error_like, instanceof.
  by rewrite !isPrototypeOf_stable, is_plain_object_stable.
Qed.

Lemma error_like_valid h v : error_like h v = true → valid h v.
Proof.
  destruct v; try done. unfold error_like, instanceof, isPrototypeOf.
  assert (∀ t, in_proto_chain (length h) h t l = true → l < length h) as Hin.
  { intros t (ps & Hps & _)%in_chain_sound.
    eapply chain_to_in_heap; [done|]. inversion Hps; apply elem_of_cons; by left. }
  intros [Ht | [_ Ht]%andb_true_iff]%orb_true_iff; by eapply Hin.
Qed.

Lemma error_like_extend h k v :
  error_like h v = true → error_like (h ++ k) v = true.
Proof.
  intros Hv. pose proof (error_like_valid _ _ Hv) as Hvalid.
  unfold error_like, instanceof in *.
  apply orb_true_iff in Hv as [Hv | [Hplain Hv]%andb_true_iff].
  - by rewrite (isPrototypeOf_extend _ _ _ _ Hv).
  - rewrite (isPrototypeOf_extend _ _ _ _ Hv).
    rewrite is_plain_object_stable, Hplain by done. apply orb_true_r.
Qed.

(** ** From [Option] to [Result] and back *)

Lemma closedb_closed h : closedb h = true → closed h.
Proof.
  unfold closedb, closed. rewrite forallb_forall.
  intros Hall l o p Hl Hp.
  assert (In o h) as Hin.
  { apply list_elem_of_In. by eapply list_elem_of_lookup_2. }
  specialize (Hall o Hin). rewrite Hp in Hall. by apply Nat.ltb_lt.
Qed.

Lemma isOk_alloc h v :
  Result.isOk (h ++ [Obj (Some Realm.Result_prototype) None {[ "val" := v ]}])
    (length h)
  = negb (error_like (h ++ [Obj (Some Realm.Result_prototype) None {[ "val" := v ]}]) v).
Proof. rewrite isOk_error_like. unfold Result.val. by rewrite Get_val_alloc. Qed.

Lemma round_trip_returns h v e :
  closed h → valid h v → v ≠ none → error_like h v = false →
  ∃ h', round_trip v e h = (Normal v, h').
Proof.
  intros Hclosed Hvalid Hv Hok.
  unfold round_trip.
  destruct (Factory_new h v) as (_ & HSome & _).
  rewrite (bind_normal _ _ _ _ _ HSome). cbn [dot].
  set (h1 := h ++ [Obj (Some Realm.Option_prototype) None {[ "val" := v ]}]).
  assert ((Option.okOr (length h) e) h1 = Factory.Ok v h1) as HokOr.
  { unfold Option.okOr. rewrite bind_read. unfold h1 at 1.
    rewrite isSome_alloc, bool_decide_eq_false_2 by done. cbn [negb].
    rewrite bind_read. unfold h1 at 1, Option.val. by rewrite Get_val_alloc. }
  destruct (Factory_new h1 v) as (HOk & _ & _). rewrite HOk in HokOr.
  rewrite (bind_normal _ _ _ _ _ HokOr). cbn [dot].
  set (h2 := h1 ++ [Obj (Some Realm.Result_prototype) None {[ "val" := v ]}]).
  assert (Result.ok (length h1) h2 = Factory.Some v h2) as Hrok.
  { unfold Result.ok. rewrite bind_read. unfold h2 at 1.
    rewrite isOk_alloc. fold h2. unfold h2 at 1, h1 at 1.
    rewrite <- app_assoc, error_like_stable, Hok by done. cbn [negb].
    rewrite bind_read. unfold h2 at 1, Result.val. by rewrite Get_val_alloc. }
  destruct (Factory_new h2 v) as (_ & HSome2 & _). rewrite HSome2 in Hrok.
  rewrite (bind_normal _ _ _ _ _ Hrok). cbn [dot].
  eexists. unfold Option.unwrap. rewrite bind_read.
  rewrite isNone_alloc, bool_decide_eq_false_2 by done.
  unfold_monad. unfold Option.val. by rewrite Get_val_alloc.
Qed.

Lemma absent_to_result_Err h e :
  absent_to_result e h
  = Factory.Err e (h ++ [Obj (Some Realm.Option_prototype) None {[ "val" := none ]}]).
Proof.
  unfold absent_to_result.
  destruct (Factory_new h VNull) as (_ & _ & HNone).
  rewrite (bind_normal _ _ _ _ _ HNone). cbn [dot].
  unfold Option.okOr. rewrite bind_read, isSome_alloc.
  by rewrite bool_decide_eq_true_2.
Qed.

(** C3, as stated, fails for a present value that is an error:
    [Some(new Error("x")).okOr("fallback").ok().unwrap()] throws
    ["Unwrap called on None"], because [Ok] of an error is a failure and
    [ok()] turns it into [None()]. *)
Lemma round_trip_of_an_error_throws :
  let '(c, h) := round_trip_of_Error Realm.intrinsics in
  c = Abrupt (VRef 20)
  ∧ Get h 20 "message" = VStr "Unwrap called on None".
Proof. vm_compute. by split. Qed.

(** C3, amended: for every value [v] that is neither the absence marker nor
    error-like, and every [e], [Some(v).okOr(e).ok().unwrap()] returns [v];
    [None().okOr(e).isErr()] is truthy and [unwrapErr()] returns [e] itself
    when [e] is error-like, and a new [Error] with the message [e] when [e]
    is a string. *)
Theorem round_trip_through_Result {host : Host}
    (h : heap) (v e err : value) (s : string) :
  closed h → valid h v → v ≠ none →
  error_like h v = false →
  error_like h err = true →
  (∃ h', round_trip v e h = (Normal v, h'))
  ∧ (∃ r h', absent_to_result err h = (Normal (VRef r), h')
             ∧ ToBoolean (Result.isErr h' r) = true
             ∧ Result.unwrapErr r h' = (Normal err, h'))
  ∧ (∃ r x h', absent_to_result (VStr s) h = (Normal (VRef r), h')
               ∧ ToBoolean (Result.isErr h' r) = true
               ∧ Result.unwrapErr r h' = (Normal (VRef x), h')
               ∧ h !! x = None
               ∧ instanceof h' (VRef x) Realm.Error_prototype = true
               ∧ Get h' x "message" = VStr s).
Proof.
  intros Hclosed Hvalid Hv Hok Herr.
  split; [by apply round_trip_returns|]. split.
  - rewrite absent_to_result_Err.
    set (h1 := h ++ [Obj (Some Realm.Option_prototype) None {[ "val" := none ]}]).
    assert (∀ s', err ≠ VStr s') as Hns by (intros s' ->; done).
    rewrite (Err_other _ _ Hns).
    eexists _, _. split; [reflexivity|].
    assert (ToBoolean
              (Result.isErr
                 (h1 ++ [Obj (Some Realm.Result_prototype) None {[ "val" := err ]}])
                 (length h1)) = true) as Hfailed.
    { rewrite isErr_truthy. unfold Result.val. rewrite Get_val_alloc.
      unfold h1. rewrite <- app_assoc. by apply error_like_extend. }
    split; [done|].
    rewrite unwrapErr_err.
    + unfold Result.val. by rewrite Get_val_alloc.
    + rewrite isOk_not_isErr. by rewrite Hfailed.
  - rewrite absent_to_result_Err.
    set (h1 := h ++ [Obj (Some Realm.Option_prototype) None {[ "val" := none ]}]).
    rewrite Err_string.
    set (h2 := h1 ++ _).
    assert (h2 !! length h1
            = Some (Obj (Some Realm.Error_prototype) None {[ "message" := VStr s ]}))
      as Hx by apply lookup_alloc_first.
    assert (h2 !! S (length h1)
            = Some (Obj (Some Realm.Result_prototype) None
                      {[ "val" := VRef (length h1) ]}))
      as Hr by apply lookup_alloc_next.
    pose proof (isErr_of_new_Error h1 s) as Hfailed. simpl in Hfailed. fold h2 in Hfailed.
    exists (S (length h1)), (length h1), h2.
    split; [done|]. split; [done|]. split; [|split; [|split]].
    + rewrite unwrapErr_err.
      * unfold Result.val.
        by rewrite (Get_own _ _ _ "val" (VRef (length h1)) Hr).
      * rewrite isOk_not_isErr. by rewrite Hfailed.
    + apply lookup_ge_None. unfold h1. rewrite length_app. simpl. lia.
    + by eapply instanceof_direct.
    + by eapply Get_own.
Qed.

(** The premises hold in the realm with one error object, for the number [1]. *)
Lemma round_trip_through_Result_witness :
  closed heap_with_error
  ∧ error_like heap_with_error (VNum 1) = false
  ∧ error_like heap_with_error (VRef 16) = true
  ∧ ∃ h', round_trip (VNum 1) VNull heap_with_error = (Normal (VNum 1), h').
Proof.
  assert (closed heap_with_error) as Hclosed
    by (apply closedb_closed; vm_compute; reflexivity).
  split; [exact Hclosed|]. split; [reflexivity|]. split; [reflexivity|].
  apply (round_trip_through_Result (host := plain_host)
           heap_with_error (VNum 1) VNull (VRef 16) EmptyString Hclosed);
    [exact I | discriminate | reflexivity | reflexivity].
Defined.

(** ** The [Symbol.hasInstance] hooks *)

(** What [isErr()] returns is [true] or a falsy value. *)
Lemma isErr_true_or_falsy h l :
  Result.isErr h l = VBool true ∨ ToBoolean (Result.isErr h l) = false.
Proof.
  unfold Result.isErr.
  destruct (instanceof h (Result.val h l) Realm.Error_prototype); [by left|].
  unfold js_or. simpl ToBoolean at 1 3. cbv iota.
  unfold js_and.
  destruct (ToBoolean (Result.val h l)) eqn:Hv; simpl; rewrite ?Hv; [|by right].
  destruct (String.eqb (typeof h (Result.val h l)) "object"); simpl; [|by right].
  destruct (isPrototypeOf h Realm.Error (Result.val h l)); [by left | by right].
Qed.

Section HookLemmas.
Context {host : Host}.

(** A candidate that is not of type ["object"] (a primitive other than
    [null], or a function) is rejected without a call. *)
Lemma hasInstance_not_object predicate v h :
  typeof h v ≠ "object" →
  hasInstance predicate v h = (Normal (VBool false), h).
Proof.
  intros Hty. unfold hasInstance. rewrite bind_read.
  destruct (String.eqb (typeof h v) "object") eqn:Heq; [|done].
  by apply String.eqb_eq in Heq.
Qed.

Lemma hasInstance_null predicate h :
  hasInstance predicate VNull h = (Normal (VBool false), h).
Proof. reflexivity. Qed.

Lemma hasInstance_object predicate h l :
  typeof h (VRef l) = "object" →
  hasInstance predicate (VRef l) h
  = (Call (Get h l predicate) l ≫= λ r, mret (js_or r (VBool false))) h.
Proof. intros Hty. unfold hasInstance. rewrite bind_read, Hty. reflexivity. Qed.

(** On an object on which the lookup of the predicate finds a method of the
    library, the hook returns what the method returns, or [false] when that
    is falsy. *)
Lemma hasInstance_Result h l v :
  realm h → is_Result h l v →
  HasInstance.Ok (VRef l) h = (Normal (VBool (Result.isOk h l)), h)
  ∧ HasInstance.Err (VRef l) h = (Normal (VBool (ToBoolean (Result.isErr h l))), h).
Proof.
  intros Hrealm Hl.
  pose proof (realm_lookup h 9 _ Hrealm eq_refl) as Hproto.
  pose proof (realm_lookup h 12 _ Hrealm eq_refl) as HisOk.
  pose proof (realm_lookup h 13 _ Hrealm eq_refl) as HisErr.
  assert (l ≠ 9) as Hne.
  { intros ->. unfold is_Result in Hl. rewrite Hproto in Hl. by simplify_eq. }
  assert (typeof h (VRef l) = "object") as Hty by (simpl; by rewrite Hl).
  split.
  - unfold HasInstance.Ok. rewrite hasInstance_object by done.
    rewrite (Get_inherited h l _ 9 _ "isOk" (VRef 12) Hl) by done.
    assert (Call (VRef 12) l h = (Normal (VBool (Result.isOk h l)), h)) as Hcall.
    { unfold Call, Result.call_function. rewrite bind_read, HisOk. reflexivity. }
    rewrite (bind_normal _ _ _ _ _ Hcall).
    unfold_monad. by destruct (Result.isOk h l).
  - unfold HasInstance.Err. rewrite hasInstance_object by done.
    rewrite (Get_inherited h l _ 9 _ "isErr" (VRef 13) Hl) by done.
    assert (Call (VRef 13) l h = (Normal (Result.isErr h l), h)) as Hcall.
    { unfold Call, Result.call_function. rewrite bind_read, HisErr. reflexivity. }
    rewrite (bind_normal _ _ _ _ _ Hcall).
    unfold_monad. f_equal. f_equal. unfold js_or.
    by destruct (isErr_true_or_falsy h l) as [-> | ->].
Qed.

Lemma hasInstance_Option h l v :
  realm h → is_Option h l v →
  HasInstance.Some (VRef l) h = (Normal (VBool (Option.isSome h l)), h)
  ∧ HasInstance.None (VRef l) h = (Normal (VBool (Option.isNone h l)), h).
Proof.
  intros Hrealm Hl.
  pose proof (realm_lookup h 7 _ Hrealm eq_refl) as Hproto.
  pose proof (realm_lookup h 10 _ Hrealm eq_refl) as HisSome.
  pose proof (realm_lookup h 11 _ Hrealm eq_refl) as HisNone.
  assert (l ≠ 7) as Hne.
  { intros ->. unfold is_Option in Hl. rewrite Hproto in Hl. by simplify_eq. }
  assert (typeof h (VRef l) = "object") as Hty by (simpl; by rewrite Hl).
  split.
  - unfold HasInstance.Some. rewrite hasInstance_object by done.
    rewrite (Get_inherited h l _ 7 _ "isSome" (VRef 10) Hl) by done.
    assert (Call (VRef 10) l h = (Normal (VBool (Option.isSome h l)), h)) as Hcall.
    { unfold Call, Result.call_function. rewrite bind_read, HisSome. reflexivity. }
    rewrite (bind_normal _ _ _ _ _ Hcall).
    unfold_monad. by destruct (Option.isSome h l).
  - unfold HasInstance.None. rewrite hasInstance_object by done.
    rewrite (Get_inherited h l _ 7 _ "isNone" (VRef 11) Hl) by done.
    assert (Call (VRef 11) l h = (Normal (VBool (Option.isNone h l)), h)) as Hcall.
    { unfold Call, Result.call_function. rewrite bind_read, HisNone. reflexivity. }
    rewrite (bind_normal _ _ _ _ _ Hcall).
    unfold_monad. by destruct (Option.isNone h l).
Qed.

(** On an object on which the lookup of the predicate finds nothing, the
    call throws. *)
Lemma hasInstance_without_method predicate h l :
  typeof h (VRef l) = "object" → Get h l predicate = VUndefined →
  raises (hasInstance predicate (VRef l)) h.
Proof.
  intros Hty Hget. unfold raises.
  rewrite hasInstance_object, Hget by done.
  by eexists _, _.
Qed.

End HookLemmas.

(** C4, as stated, fails on candidates that are not containers.  A function
    that carries the predicate ([f.isOk = Result.prototype.isOk], for which
    [f.isOk()] is true) is rejected by the [typeof] guard; and on [{}], an
    object without the predicate, the hook does not return: the call of the
    missing method throws a [TypeError]. *)
Lemma hooks_outside_containers :
  (let '(c, h) := (function_with_isOk ≫= HasInstance.Ok (host := plain_host))
                    Realm.intrinsics in
   c = Normal (VBool false)
   ∧ typeof h (VRef 16) = "function"
   ∧ Call (host := plain_host) (Get h 16 "isOk") 16 h = (Normal (VBool true), h))
  ∧ (let '(c, h) := (empty_object ≫= HasInstance.Ok (host := plain_host))
                      Realm.intrinsics in
     c = Abrupt (VRef 17)
     ∧ typeof h (VRef 16) = "object"
     ∧ instanceof h (VRef 17) Realm.TypeError_prototype = true).
Proof. vm_compute. by repeat split. Qed.

(** C4, amended: each of the four hooks returns [false] on every candidate
    whose [typeof] is not ["object"] (the primitives other than [null], and
    the functions) and on [null]; on a [Result] the hooks of [Ok] and [Err],
    and on an [Option] the hooks of [Some] and [None], return [true] iff the
    matching predicate reports a truthy value, and [false] otherwise. *)
Theorem hooks_on_primitives_and_containers {host : Host}
    (h : heap) (p : value) (r o : loc) (v w : value) :
  realm h →
  typeof h p ≠ "object" →
  is_Result h r v →
  is_Option h o w →
  (let rejects (hook : value → M value) :=
     hook p h = (Normal (VBool false), h)
     ∧ hook VNull h = (Normal (VBool false), h) in
   rejects HasInstance.Ok ∧ rejects HasInstance.Err
   ∧ rejects HasInstance.Some ∧ rejects HasInstance.None)
  ∧ HasInstance.Ok (VRef r) h = (Normal (VBool (Result.isOk h r)), h)
  ∧ HasInstance.Err (VRef r) h = (Normal (VBool (ToBoolean (Result.isErr h r))), h)
  ∧ HasInstance.Some (VRef o) h = (Normal (VBool (Option.isSome h o)), h)
  ∧ HasInstance.None (VRef o) h = (Normal (VBool (Option.isNone h o)), h).
Proof.
  intros Hrealm Hp Hr Ho. split.
  - repeat split; first [by apply hasInstance_not_object | apply hasInstance_null].
  - destruct (hasInstance_Result h r v Hrealm Hr) as [-> ->].
    by destruct (hasInstance_Option h o w Hrealm Ho) as [-> ->].
Qed.

(** The premises hold in the realm with [Ok(1)] and [Some(1)], for the number [0]. *)
Lemma hooks_on_primitives_and_containers_witness :
  realm heap_with_containers
  ∧ HasInstance.Ok (host := plain_host) (VRef 16) heap_with_containers
    = (Normal (VBool true), heap_with_containers)
  ∧ HasInstance.None (host := plain_host) (VRef 17) heap_with_containers
    = (Normal (VBool false), heap_with_containers).
Proof.
  assert (realm heap_with_containers) as Hrealm by (eexists; reflexivity).
  split; [exact Hrealm|].
  destruct (hooks_on_primitives_and_containers (host := plain_host)
              heap_with_containers (VNum 0) 16 17 (VNum 1) (VNum 1) Hrealm)
    as (_ & HOk & _ & _ & HNone);
    [discriminate | reflexivity | reflexivity |].
  split; [exact HOk | exact HNone].
Defined.

(** * Further properties of the code *)

(** ** The capture adapters *)

(** Neither [Result.from] nor [Result.fromAsync] nor the standalone adapter
    ever completes abruptly, whatever the computation does; when it returns
    (or fulfils with) [v] the result is [Ok(v)]. *)
Theorem capture_adapters_always_return
    (fn : M value) (afn : M promise) (p : promise) (h : heap) :
  returns (Result.from fn) h
  ∧ returns (Result.fromAsync afn) h
  ∧ returns (async p) h
  ∧ match fn h with
    | (Normal v, h1) => Result.from fn h = Factory.Ok v h1
    | _ => True
    end
  ∧ match (afn ≫= await) h with
    | (Normal v, h1) => Result.fromAsync afn h = Factory.Ok v h1
    | _ => True
    end
  ∧ match p h with
    | (Normal v, h1) => async p h = Factory.Ok v h1
    | _ => True
    end.
Proof.
  split; [|split; [|split; [|split; [|split]]]].
  - unfold returns, Result.from, try_catch, mbind, M_bind.
    destruct (fn h) as [[v|e] h1]; by eexists _, _.
  - unfold returns, Result.fromAsync, async_function, try_catch, await, mbind, M_bind.
    destruct (afn h) as [[q|e] h0]; [|by eexists _, _].
    destruct (q h0) as [[v|e] h1]; by eexists _, _.
  - unfold returns, async, async_function, try_catch, await, mbind, M_bind.
    destruct (p h) as [[v|e] h1]; [by eexists _, _|].
    apply (returns_Factory h1 e).
  - unfold Result.from, try_catch, mbind, M_bind.
    by destruct (fn h) as [[v|e] h1].
  - unfold Result.fromAsync, async_function, try_catch, await, mbind, M_bind.
    destruct (afn h) as [[q|e] h0]; [|done].
    by destruct (q h0) as [[v|e] h1].
  - unfold async, async_function, try_catch, await, mbind, M_bind.
    by destruct (p h) as [[v|e] h1].
Qed.

Lemma bind_ret {A B} (a : A) (f : A → M B) h : (mret a ≫= f) h = f a h.
Proof. reflexivity. Qed.

(** The standalone adapter on a promise [p] and [Result.fromAsync] on a
    function returning [p] give the same container, except when [p] rejects
    with a string: the adapter then holds a new [Error] (a failure),
    [Result.fromAsync] the string itself (a success). *)
Theorem async_versus_fromAsync (p : promise) (h : heap) :
  match p h with
  | (Abrupt (VStr s), h1) =>
      ∃ r r' h2 h2',
        async p h = (Normal (VRef r), h2)
        ∧ Result.fromAsync (mret p) h = (Normal (VRef r'), h2')
        ∧ ToBoolean (Result.isErr h2 r) = true
        ∧ Result.isOk h2' r' = true
        ∧ Result.val h2' r' = VStr s
  | _ => async p h = Result.fromAsync (mret p) h
  end.
Proof.
  destruct (p h) as [[v|e] h1] eqn:Hp.
  - unfold async, Result.fromAsync, async_function, try_catch, await.
    by rewrite bind_ret, !(bind_normal _ _ _ _ _ Hp).
  - assert (Result.fromAsync (mret p) h
            = (Normal (VRef (length h1)),
               h1 ++ [Obj (Some Realm.Result_prototype) None {[ "val" := e ]}]))
      as Hfrom.
    { unfold Result.fromAsync, async_function, try_catch, await.
      by rewrite bind_ret, (bind_abrupt _ _ _ _ _ Hp). }
    assert (async p h = Factory.Err e h1) as Hasync.
    { unfold async, async_function, try_catch, await.
      by rewrite (bind_abrupt _ _ _ _ _ Hp). }
    destruct (string_or_not e) as [[s ->]|Hns].
    + eexists _, _, _, _. rewrite Hasync, Hfrom, Err_string.
      split; [done|]. split; [done|].
      split; [apply isErr_of_new_Error|].
      rewrite isOk_error_like. unfold Result.val. by rewrite Get_val_alloc.
    + rewrite Hasync, Hfrom, (Err_other _ _ Hns).
      by destruct e; try done; destruct (Hns s).
Qed.

(** ** The factories and the classification of what they make *)

Lemma isErr_alloc h v :
  ToBoolean
    (Result.isErr (h ++ [Obj (Some Realm.Result_prototype) None {[ "val" := v ]}])
       (length h))
  = error_like (h ++ [Obj (Some Realm.Result_prototype) None {[ "val" := v ]}]) v.
Proof. rewrite isErr_truthy. unfold Result.val. by rewrite Get_val_alloc. Qed.

(** [Err(v)] is classified as a failure exactly when [v] is a string or
    error-like; [Err] of any other value, [Err(42)] for one, is a success. *)
Theorem Err_fails_only_on_strings_and_errors (h : heap) (v : value) :
  closed h → valid h v →
  ∃ r h', Factory.Err v h = (Normal (VRef r), h')
          ∧ ToBoolean (Result.isErr h' r) = is_string v || error_like h v
          ∧ Result.isOk h' r = negb (is_string v || error_like h v).
Proof.
  intros Hclosed Hvalid.
  destruct (string_or_not v) as [[s ->]|Hns].
  - eexists _, _. rewrite Err_string. split; [done|].
    pose proof (isErr_of_new_Error h s) as Hfailed. simpl in Hfailed.
    rewrite isOk_not_isErr, Hfailed. done.
  - eexists _, _. rewrite (Err_other _ _ Hns). split; [done|].
    rewrite isOk_not_isErr, isErr_alloc, error_like_stable by done.
    assert (is_string v = false) as -> by (destruct v; try done; by destruct (Hns s)).
    done.
Qed.

(** The premises hold for [42] in the realm: [Err(42)] is a success. *)
Lemma Err_fails_only_on_strings_and_errors_witness :
  ∃ r h', Factory.Err (VNum 42) Realm.intrinsics = (Normal (VRef r), h')
          ∧ ToBoolean (Result.isErr h' r) = false
          ∧ Result.isOk h' r = true.
Proof.
  apply (Err_fails_only_on_strings_and_errors Realm.intrinsics (VNum 42)).
  - apply closedb_closed. vm_compute. reflexivity.
  - exact I.
Defined.

Section OkExtraction.
Context {host : Host}.

(** [Ok(v)] is a success exactly when [v] is not error-like.  Then [unwrap]
    and [expect] return [v] and [unwrapErr] throws; for an error-like [v]
    it is the other way round. *)
Theorem Ok_succeeds_unless_error_like (h : heap) (v : value) (msg : string) :
  closed h → valid h v →
  ∃ r h', Factory.Ok v h = (Normal (VRef r), h')
          ∧ Result.isOk h' r = negb (error_like h v)
          ∧ if error_like h v
            then raises (Result.unwrap r) h' ∧ raises (Result.expect r msg) h'
                 ∧ Result.unwrapErr r h' = (Normal v, h')
                 ∧ Result.expectErr r msg h' = (Normal v, h')
            else Result.unwrap r h' = (Normal v, h')
                 ∧ Result.expect r msg h' = (Normal v, h')
                 ∧ raises (Result.unwrapErr r) h' ∧ raises (Result.expectErr r msg) h'.
Proof.
  intros Hclosed Hvalid. eexists _, _. split; [reflexivity|].
  set (h' := h ++ _).
  assert (Result.val h' (length h) = v) as Hval
    by (unfold Result.val, h'; by rewrite Get_val_alloc).
  assert (ToBoolean (Result.isErr h' (length h)) = error_like h v) as Herr
    by (unfold h'; by rewrite isErr_alloc, error_like_stable).
  assert (Result.isOk h' (length h) = negb (error_like h v)) as Hok
    by (by rewrite isOk_not_isErr, Herr).
  split; [done|].
  destruct (error_like h v) eqn:Hv; simpl in Hok.
  - destruct (Result_unchecked_raise h' (length h) msg) as [Hraise _].
    destruct (Hraise Herr) as (Hu & He & _).
    split; [done|]. split; [done|]. split.
    + by rewrite unwrapErr_err, Hval.
    + unfold Result.expectErr. rewrite bind_read, Hok. by rewrite <- Hval.
  - destruct (Result_unchecked_raise h' (length h) msg) as [_ Hraise].
    destruct (Hraise Hok) as (Hu & He).
    split; [by rewrite unwrap_ok, Hval|]. split; [|done].
    unfold Result.expect. rewrite bind_read, Herr. by rewrite <- Hval.
Qed.

End OkExtraction.

(** The premises hold for [1] in the realm. *)
Lemma Ok_succeeds_unless_error_like_witness :
  ∃ r h', Factory.Ok (VNum 1) Realm.intrinsics = (Normal (VRef r), h')
          ∧ Result.isOk h' r = true.
Proof.
  destruct (Ok_succeeds_unless_error_like (host := plain_host)
              Realm.intrinsics (VNum 1) EmptyString)
    as (r & h' & HOk & Hcls & _).
  - apply closedb_closed. vm_compute. reflexivity.
  - exact I.
  - exists r, h'. split; [exact HOk | exact Hcls].
Defined.

(** What [isErr()] returns: [true] for an error-like content, the content
    itself when it is falsy ([0], the empty string, [null], [undefined],
    [NaN]), and [false] otherwise.  So [isErr() === false] does not hold for
    [Ok(0)]. *)
Theorem isErr_returns_the_falsy_content (h : heap) (this : loc) :
  Result.isErr h this
  = if error_like h (Result.val h this) then VBool true
    else if ToBoolean (Result.val h this) then VBool false
         else Result.val h this.
Proof.
  destruct (error_like h (Result.val h this)) eqn:Hlike.
  - destruct (isErr_true_or_falsy h this) as [-> | Hfalsy]; [done|].
    rewrite isErr_truthy in Hfalsy. congruence.
  - destruct (ToBoolean (Result.val h this)) eqn:Hv; [|by apply isErr_of_falsy].
    unfold error_like in Hlike. apply orb_false_iff in Hlike as [Hinst Hproto].
    unfold Result.isErr. rewrite Hinst.
    unfold js_or. simpl ToBoolean at 1. cbv iota.
    unfold js_and. rewrite Hv.
    destruct (Result.val h this) as [| |[]|n| |n|s| |l]; try done.
    simpl in *. destruct (h !! l) as [[p [c|] ps]|]; simpl in *; try done;
      by rewrite Hproto.
Qed.

(** ** Laws of the combinators *)

(** [x.map(v => v)] has the content and the classification of [x], for a
    [Result] and for an [Option]. *)
Theorem map_identity_law (h : heap) (this : loc) :
  closed h → valid h (Result.val h this) →
  (∃ r h', Result.map this identity h = (Normal (VRef r), h')
           ∧ Result.val h' r = Result.val h this
           ∧ Result.isOk h' r = Result.isOk h this)
  ∧ (∃ o h', Option.map this identity h = (Normal (VRef o), h')
             ∧ Option.val h' o = Option.val h this
             ∧ Option.isSome h' o = Option.isSome h this).
Proof.
  intros Hclosed Hvalid. split.
  - unfold Result.map. rewrite bind_read.
    destruct (Result.isOk h this) eqn:Hok; [|by eexists _, _].
    eexists _, _. split; [reflexivity|].
    split; [unfold Result.val; by rewrite Get_val_alloc|].
    rewrite isOk_not_isErr, isErr_alloc, error_like_stable by done.
    by rewrite <- isOk_error_like.
  - unfold Option.map. rewrite bind_read.
    destruct (Option.isSome h this) eqn:Hsome; [|by eexists _, _].
    eexists _, _. split; [reflexivity|].
    split; [unfold Option.val; by rewrite Get_val_alloc|].
    rewrite isSome_alloc. unfold Option.isSome in Hsome.
    by rewrite strict_eq_none in Hsome.
Qed.

(** The premises hold for [Ok(1)] in the realm. *)
Lemma map_identity_law_witness :
  ∃ r h', Result.map 16 identity heap_with_containers = (Normal (VRef r), h')
          ∧ Result.val h' r = Result.val heap_with_containers 16
          ∧ Result.isOk h' r = Result.isOk heap_with_containers 16.
Proof.
  apply (map_identity_law heap_with_containers 16).
  - apply closedb_closed. vm_compute. reflexivity.
  - exact I.
Defined.

(** The classification of what [map] and [mapErr] return is that of the
    value the function returns, not that of the receiver: when the function,
    applied to the content, returns [w], [map] on a success and [mapErr] on
    a failure return a new container that holds [w] and is a success exactly
    when [w] is not error-like.  So [map] with a function that returns an
    error gives a failure, and [mapErr] with a function that returns
    anything but an error gives a success. *)
Theorem map_reclassifies_by_result
    (h h1 : heap) (this : loc) (fn : value → M value) (w : value) :
  fn (Result.val h this) h = (Normal w, h1) →
  let h' := h1 ++ [Obj (Some Realm.Result_prototype) None {[ "val" := w ]}] in
  (Result.isOk h this = true →
     Result.map this fn h = (Normal (VRef (length h1)), h'))
  ∧ (Result.isOk h this = false →
       Result.mapErr this fn h = (Normal (VRef (length h1)), h'))
  ∧ Result.val h' (length h1) = w
  ∧ Result.isOk h' (length h1) = negb (error_like h' w).
Proof.
  intros Hfn h'.
  split; [|split; [|split]].
  - intros Hs. unfold Result.map. rewrite bind_read, Hs, bind_read.
    by rewrite (bind_normal _ _ _ _ _ Hfn).
  - intros Hf. unfold Result.mapErr. rewrite bind_read, Hf, bind_read.
    by rewrite (bind_normal _ _ _ _ _ Hfn).
  - unfold Result.val, h'. by rewrite Get_val_alloc.
  - unfold h'. by rewrite isOk_not_isErr, isErr_alloc.
Qed.

(** [flatten] applied twice is [flatten] applied once exactly when what the
    first application returns does not itself hold a container of the class:
    on a flat or once nested container, not on a twice nested one. *)
Theorem flatten_twice (h : heap) (this : loc) :
  (∃ y, Result.flatten this h = (Normal (VRef y), h)
        ∧ flatten_twice_Result this h
          = if instanceof h (Result.val h y) Realm.Result_prototype
            then (Normal (Result.val h y), h)
            else Result.flatten this h)
  ∧ (∃ y, Option.flatten this h = (Normal (VRef y), h)
          ∧ flatten_twice_Option this h
            = if instanceof h (Option.val h y) Realm.Option_prototype
              then (Normal (Option.val h y), h)
              else Option.flatten this h).
Proof.
  split.
  - unfold flatten_twice_Result.
    assert (∃ y, Result.flatten this h = (Normal (VRef y), h)) as [y Hy].
    { unfold Result.flatten. rewrite !bind_read.
      destruct (instanceof h (Result.val h this) Realm.Result_prototype) eqn:Hin;
        [|by eexists].
      destruct (Result.val h this); try done. by eexists. }
    exists y. split; [done|].
    rewrite (bind_normal _ _ _ _ _ Hy). cbn [dot].
    unfold Result.flatten at 1. rewrite !bind_read.
    by destruct (instanceof h (Result.val h y) Realm.Result_prototype).
  - unfold flatten_twice_Option.
    assert (∃ y, Option.flatten this h = (Normal (VRef y), h)) as [y Hy].
    { unfold Option.flatten. rewrite !bind_read.
      destruct (instanceof h (Option.val h this) Realm.Option_prototype) eqn:Hin;
        [|by eexists].
      destruct (Option.val h this); try done. by eexists. }
    exists y. split; [done|].
    rewrite (bind_normal _ _ _ _ _ Hy). cbn [dot].
    unfold Option.flatten at 1. rewrite !bind_read.
    by destruct (instanceof h (Option.val h y) Realm.Option_prototype).
Qed.

(** [unwrapOr(fallback)] is [mapOr(fallback, v => v)], and on an [Option]
    also [unwrapOrElse(() => fallback)]. *)
Theorem unwrapOr_is_mapOr_identity (h : heap) (this : loc) (fallback : value) :
  Result.unwrapOr this fallback h = Result.mapOr this fallback identity h
  ∧ Option.unwrapOr this fallback h = Option.mapOr this fallback identity h
  ∧ Option.unwrapOr this fallback h = Option.unwrapOrElse this (mret fallback) h.
Proof.
  split; [|split].
  - unfold Result.unwrapOr, Result.mapOr. rewrite !bind_read, isOk_not_isErr.
    by destruct (ToBoolean (Result.isErr h this)).
  - unfold Option.unwrapOr, Option.mapOr, Option.isSome, Option.isNone.
    rewrite !bind_read.
    by destruct (strict_eq (Option.val h this) none).
  - unfold Option.unwrapOr, Option.unwrapOrElse. rewrite !bind_read.
    by destruct (Option.isNone h this).
Qed.

(** In the state in which a combinator passes its receiver on, it does not
    call its function argument: the result is the same for every function,
    also for one that would throw. *)
Theorem functions_are_called_only_in_the_matching_state
    (h : heap) (succeeded failed present absent : loc)
    (fn : value → M value) (thunk : M value) (fallback : value) :
  Result.isOk h succeeded = true →
  Result.isOk h failed = false →
  Option.isSome h present = true →
  Option.isSome h absent = false →
  Result.map failed fn h = (Normal (VRef failed), h)
  ∧ Result.mapOr failed fallback fn h = (Normal fallback, h)
  ∧ Result.mapErr succeeded fn h = (Normal (VRef succeeded), h)
  ∧ Result.unwrapOrElse succeeded fn h = (Normal (Result.val h succeeded), h)
  ∧ Option.map absent fn h = (Normal (VRef absent), h)
  ∧ Option.mapOr absent fallback fn h = (Normal fallback, h)
  ∧ Option.unwrapOrElse present thunk h = (Normal (Option.val h present), h).
Proof.
  intros Hs Hf Hp Ha.
  assert (ToBoolean (Result.isErr h succeeded) = false) as Hs'.
  { rewrite isOk_not_isErr in Hs. by destruct (ToBoolean (Result.isErr h succeeded)). }
  assert (Option.isNone h present = false) as Hp'.
  { unfold Option.isSome in Hp. unfold Option.isNone.
    by destruct (strict_eq (Option.val h present) none). }
  repeat split.
  - unfold Result.map. by rewrite bind_read, Hf.
  - unfold Result.mapOr. by rewrite bind_read, Hf.
  - unfold Result.mapErr. by rewrite bind_read, Hs.
  - unfold Result.unwrapOrElse. by rewrite bind_read, Hs'.
  - unfold Option.map. by rewrite bind_read, Ha.
  - unfold Option.mapOr. by rewrite bind_read, Ha.
  - unfold Option.unwrapOrElse. by rewrite bind_read, Hp'.
Qed.

(** The premise holds for [Err(new Error("x"))] and the function that
    returns [2], and for [Ok(1)] and the function that returns the error
    [new Error("x")]. *)
Lemma map_reclassifies_by_result_witness :
  (∃ r h', Result.mapErr 17 (λ _, mret (VNum 2)) heap_with_all = (Normal (VRef r), h')
           ∧ Result.val h' r = VNum 2
           ∧ Result.isOk h' r = true)
  ∧ (∃ r h', Result.map 18 (λ _, mret (VRef 16)) heap_with_all = (Normal (VRef r), h')
             ∧ Result.val h' r = VRef 16
             ∧ Result.isOk h' r = false).
Proof.
  split.
  - destruct (map_reclassifies_by_result heap_with_all heap_with_all 17
                (λ _, mret (VNum 2)) (VNum 2) eq_refl)
      as (_ & Hmap & Hval & Hok).
    eexists _, _. split; [exact (Hmap eq_refl)|]. split; [exact Hval | exact Hok].
  - destruct (map_reclassifies_by_result heap_with_all heap_with_all 18
                (λ _, mret (VRef 16)) (VRef 16) eq_refl)
      as (Hmap & _ & Hval & Hok).
    eexists _, _. split; [exact (Hmap eq_refl)|]. split; [exact Hval | exact Hok].
Defined.

(** The premises hold for [Ok(1)], [Err(new Error("x"))], [Some(1)] and
    [None()], with a function that throws. *)
Lemma functions_are_called_only_in_the_matching_state_witness :
  Result.map 17 (λ v, mthrow v) heap_with_all = (Normal (VRef 17), heap_with_all)
  ∧ Option.unwrapOrElse 19 throw_string heap_with_all = (Normal (VNum 1), heap_with_all).
Proof.
  destruct (functions_are_called_only_in_the_matching_state heap_with_all
              18 17 19 20 (λ v, mthrow v) throw_string VNull
              eq_refl eq_refl eq_refl eq_refl)
    as (Hmap & _ & _ & _ & _ & _ & Helse).
  split; [exact Hmap | exact Helse].
Defined.

(** ** Conversions and chains *)

Lemma unwrapOr_alloc h v fallback :
  Option.unwrapOr (length h) fallback
    (h ++ [Obj (Some Realm.Option_prototype) None {[ "val" := v ]}])
  = (Normal (if bool_decide (v = none) then fallback else v),
     h ++ [Obj (Some Realm.Option_prototype) None {[ "val" := v ]}]).
Proof.
  unfold Option.unwrapOr. rewrite bind_read, isNone_alloc.
  destruct (bool_decide (v = none)); [done|].
  unfold read, Option.val. by rewrite Get_val_alloc.
Qed.

(** [ok()] keeps the classification and the content, unless the content is
    the absence marker: the [Option] it returns is present exactly when the
    receiver is a success, iterates the same values, and [ok().unwrapOr(x)]
    gives what [unwrapOr(x)] gives. *)
Theorem ok_keeps_state_and_content (h : heap) (this : loc) (fallback : value) :
  Result.val h this ≠ none →
  ∃ o h', Result.ok this h = (Normal (VRef o), h')
          ∧ Option.isSome h' o = Result.isOk h this
          ∧ spread_Option h' o = spread_Result h this
          ∧ ∃ x, ok_then_unwrapOr this fallback h = (Normal x, h')
                 ∧ Result.unwrapOr this fallback h = (Normal x, h).
Proof.
  intros Hv.
  assert (Result.ok this h
          = if Result.isOk h this then Factory.Some (Result.val h this) h
            else Factory.None h) as Hok.
  { unfold Result.ok. rewrite bind_read. by destruct (Result.isOk h this). }
  assert (Result.unwrapOr this fallback h
          = (Normal (if Result.isOk h this then Result.val h this else fallback), h))
    as Hor.
  { unfold Result.unwrapOr. rewrite bind_read, isOk_not_isErr.
    by destruct (ToBoolean (Result.isErr h this)). }
  unfold ok_then_unwrapOr, spread_Result, spread_Option. rewrite Hor.
  destruct (Result.isOk h this) eqn:Hs.
  - destruct (Factory_new h (Result.val h this)) as (_ & HSome & _).
    rewrite HSome in Hok. eexists _, _. split; [exact Hok|].
    rewrite (bind_normal _ _ _ _ _ Hok), isSome_alloc. cbn [dot].
    rewrite unwrapOr_alloc, bool_decide_eq_false_2 by done.
    unfold Option.val. rewrite Get_val_alloc. eauto.
  - destruct (Factory_new h VNull) as (_ & _ & HNone).
    rewrite HNone in Hok. eexists _, _. split; [exact Hok|].
    rewrite (bind_normal _ _ _ _ _ Hok), isSome_alloc. cbn [dot].
    rewrite unwrapOr_alloc, bool_decide_eq_true_2 by done. eauto.
Qed.

(** The premise holds for [Ok(1)]. *)
Lemma ok_keeps_state_and_content_witness :
  ∃ o h', Result.ok 18 heap_with_all = (Normal (VRef o), h')
          ∧ Option.isSome h' o = true.
Proof.
  destruct (ok_keeps_state_and_content heap_with_all 18 VNull)
    as (o & h' & Hok & Hsome & _); [discriminate|].
  exists o, h'. split; [exact Hok | exact Hsome].
Defined.

(** [Option.from(fn).unwrapOr(x)] is [fn() ?? x]: the fallback when [fn]
    returns [null] or [undefined] (or the marker), else what [fn]
    returns. *)
Theorem from_then_unwrapOr_is_nullish_coalescing
    (fn : M value) (h h1 : heap) (r fallback : value) :
  fn h = (Normal r, h1) →
  ∃ h', from_then_unwrapOr fn fallback h
        = (Normal (if bool_decide (r = none) then fallback else nullish r fallback),
           h').
Proof.
  intros Hfn. unfold from_then_unwrapOr, Option.from.
  eexists. rewrite bind_normal with (a := VRef (length h1))
    (h' := h1 ++ [Obj (Some Realm.Option_prototype) None
                    {[ "val" := nullish r none ]}]).
  - cbn [dot]. rewrite unwrapOr_alloc.
    by destruct r as [| | | | | | |[|n]|].
  - rewrite (bind_normal _ _ _ _ _ Hfn). by destruct r.
Qed.

(** The premise holds for a function that returns [0]. *)
Lemma from_then_unwrapOr_is_nullish_coalescing_witness :
  ∃ h', from_then_unwrapOr (mret (VNum 0)) (VNum 7) Realm.intrinsics
        = (Normal (VNum 0), h').
Proof.
  apply (from_then_unwrapOr_is_nullish_coalescing
           (mret (VNum 0)) Realm.intrinsics Realm.intrinsics (VNum 0) (VNum 7)).
  reflexivity.
Defined.

(** [Result.from(fn).throw()] throws [v] again when [fn] throws, or
    returns, an error-like [v]; it returns [undefined] when [v] is anything
    else, so a thrown string is dropped. *)
Theorem from_then_throw_rethrows_only_errors
    (fn : M value) (h h1 : heap) (v : value) :
  closed h1 → valid h1 v →
  fn h = (Normal v, h1) ∨ fn h = (Abrupt v, h1) →
  ∃ h', from_then_throw fn h
        = (if error_like h1 v then Abrupt v else Normal VUndefined, h').
Proof.
  intros Hclosed Hvalid Hfn. unfold from_then_throw.
  assert (Result.from fn h
          = (Normal (VRef (length h1)),
             h1 ++ [Obj (Some Realm.Result_prototype) None {[ "val" := v ]}]))
    as Hfrom.
  { unfold Result.from, try_catch.
    destruct Hfn as [Hfn | Hfn].
    - by rewrite (bind_normal _ _ _ _ _ Hfn).
    - by rewrite (bind_abrupt _ _ _ _ _ Hfn). }
  rewrite (bind_normal _ _ _ _ _ Hfrom). cbn [dot].
  unfold Result.throw. rewrite bind_read, isErr_alloc, error_like_stable by done.
  eexists. destruct (error_like h1 v); [|reflexivity].
  rewrite bind_read. unfold Result.val. by rewrite Get_val_alloc.
Qed.

(** The premises hold for the function that throws ["x"]: nothing is
    thrown again. *)
Lemma from_then_throw_rethrows_only_errors_witness :
  ∃ h', from_then_throw throw_string Realm.intrinsics = (Normal VUndefined, h').
Proof.
  apply (from_then_throw_rethrows_only_errors
           throw_string Realm.intrinsics Realm.intrinsics (VStr "x")).
  - apply closedb_closed. vm_compute. reflexivity.
  - exact I.
  - right. reflexivity.
Defined.

(** ** What the unchecked extractions throw *)

(** On an absent [Option], [expect(msg)] throws a new [Error] whose message
    is [msg] and [unwrap()] one whose message is ["Unwrap called on None"];
    on a present one both return the content and allocate nothing. *)
Theorem Option_extraction_errors (h : heap) (this : loc) (msg : string) :
  if Option.isNone h this
  then Option.expect this msg h
       = (Abrupt (VRef (length h)), h ++ [Error_object msg])
       ∧ Option.unwrap this h
         = (Abrupt (VRef (length h)), h ++ [Error_object "Unwrap called on None"])
       ∧ instanceof (h ++ [Error_object msg]) (VRef (length h)) Realm.Error_prototype
         = true
       ∧ Get (h ++ [Error_object msg]) (length h) "message" = VStr msg
  else Option.expect this msg h = (Normal (Option.val h this), h)
       ∧ Option.unwrap this h = (Normal (Option.val h this), h).
Proof.
  unfold Option.expect, Option.unwrap. rewrite !bind_read.
  destruct (Option.isNone h this); [|done].
  split; [done|]. split; [done|]. split.
  - eapply instanceof_direct; [apply lookup_alloc | done].
  - eapply (Get_own _ _ (Error_object msg)); [apply lookup_alloc | done].
Qed.

Lemma lookup_chain_missing h l o p po q qo key :
  3 ≤ length h →
  h !! l = Some o → props o !! key = None → proto o = Some p →
  h !! p = Some po → props po !! key = None → proto po = Some q →
  h !! q = Some qo → props qo !! key = None → proto qo = None →
  Get h l key = VUndefined.
Proof.
  intros Hlen Hl Hk Hp Hpo Hpk Hq Hqo Hqk Hnone. unfold Get.
  destruct (length h) as [|[|[|n]]]; [lia..|].
  simpl. by rewrite Hl, Hk, Hp, Hpo, Hpk, Hq, Hqo, Hqk, Hnone.
Qed.

Section Diagnostics.
Context {host : Host}.

(** On [Ok()] and [Ok(null)], [expectErr(msg)] does not throw the error
    that carries [msg]: reading [stack] of the content throws a [TypeError]
    first.  [unwrapErr()] throws its own [Error]. *)
Theorem expectErr_on_undefined_throws_TypeError
    (h : heap) (this : loc) (v : value) (msg : string) :
  is_Result h this v → v = VUndefined ∨ v = VNull →
  (∃ t h', Result.expectErr this msg h = (Abrupt (VRef t), h')
           ∧ instanceof h' (VRef t) Realm.TypeError_prototype = true)
  ∧ (∃ e h', Result.unwrapErr this h = (Abrupt (VRef e), h')
             ∧ instanceof h' (VRef e) Realm.Error_prototype = true
             ∧ Get h' e "message"
               = VStr ("UnwrapError called on value - "
                       ++ (if bool_decide (v = VNull) then "null" else "undefined"))%string).
Proof.
  intros Hthis Hv.
  assert (Result.val h this = v) as Hval by by eapply Get_own.
  assert (Result.isOk h this = true) as Hok.
  { rewrite isOk_error_like, Hval. by destruct Hv as [-> | ->]. }
  split.
  - unfold Result.expectErr. rewrite bind_read, Hok.
    set (h1 := h ++ [Error_object msg]).
    set (terr := Obj (Some Realm.TypeError_prototype) None
                   {[ "message" := VStr "Cannot read properties of undefined" ]}).
    assert ((e ← new_Error msg; Result.formatError this e) h
            = (Abrupt (VRef (length h1)), h1 ++ [terr])) as Hrun.
    { change ((e ← new_Error msg; Result.formatError this e) h)
        with (Result.formatError this (length h) h1).
      unfold Result.formatError. rewrite bind_read.
      assert (Get h1 (length h) "message" = VStr msg) as ->
        by (eapply Get_own; [apply lookup_alloc | done]).
      simpl ToString. rewrite bind_ret, bind_read.
      assert (Result.val h1 this = v) as ->.
      { eapply Get_own; [apply lookup_app_l_Some; exact Hthis | done]. }
      by destruct Hv as [-> | ->]. }
    exists (length h1), (h1 ++ [terr]).
    split; [by rewrite (bind_abrupt _ _ _ _ _ Hrun)|].
    eapply instanceof_direct; [apply lookup_alloc | done].
  - set (text := ("UnwrapError called on value - "
                  ++ (if bool_decide (v = VNull) then "null" else "undefined"))%string).
    assert (Result.unwrapErr this h
            = (Abrupt (VRef (length h)), h ++ [Error_object text])) as ->.
    { unfold Result.unwrapErr. rewrite bind_read, Hok.
      rewrite bind_abrupt with (e := VRef (length h)) (h' := h ++ [Error_object text]);
        [done|].
      rewrite bind_read, Hval.
      destruct Hv as [-> | ->]; simpl ToString; rewrite bind_ret; reflexivity. }
    eexists _, _. split; [reflexivity|]. split.
    + eapply instanceof_direct; [apply lookup_alloc | done].
    + eapply (Get_own _ _ (Error_object text)); [apply lookup_alloc | done].
Qed.

End Diagnostics.

(** The premises hold for [Ok()] in the realm. *)
Lemma expectErr_on_undefined_throws_TypeError_witness :
  ∃ t h', Result.expectErr (host := plain_host) 16 "context" heap_with_Ok_undefined
          = (Abrupt (VRef t), h')
          ∧ instanceof h' (VRef t) Realm.TypeError_prototype = true.
Proof.
  apply (expectErr_on_undefined_throws_TypeError (host := plain_host)
           heap_with_Ok_undefined 16 VUndefined "context");
    [reflexivity | left; reflexivity].
Defined.

(** ** The hooks on containers of the other class *)

Section HookProperties.
Context {host : Host}.

Lemma hasInstance_missing_throws predicate h l :
  typeof h (VRef l) = "object" → Get h l predicate = VUndefined →
  ∃ t h', hasInstance predicate (VRef l) h = (Abrupt (VRef t), h')
          ∧ instanceof h' (VRef t) Realm.TypeError_prototype = true.
Proof.
  intros Hty Hget. rewrite hasInstance_object, Hget by done.
  eexists _, _. split; [reflexivity|].
  eapply instanceof_direct; [apply lookup_alloc | done].
Qed.

(** [x instanceof Ok] and [x instanceof Err] throw a [TypeError] for every
    [Option] [x], and [x instanceof Some] and [x instanceof None] for every
    [Result] [x]: the hook calls a predicate the other class does not
    have. *)
Theorem hooks_throw_on_the_other_class (h : heap) (r o : loc) (v w : value) :
  realm h → is_Result h r v → is_Option h o w →
  let throws (c : completion value * heap) :=
    ∃ t, c.1 = Abrupt (VRef t)
         ∧ instanceof c.2 (VRef t) Realm.TypeError_prototype = true in
  throws (HasInstance.Ok (VRef o) h) ∧ throws (HasInstance.Err (VRef o) h)
  ∧ throws (HasInstance.Some (VRef r) h) ∧ throws (HasInstance.None (VRef r) h).
Proof.
  intros Hrealm Hr Ho throws.
  pose proof (realm_lookup h 0 _ Hrealm eq_refl) as H0.
  pose proof (realm_lookup h 7 _ Hrealm eq_refl) as H7.
  pose proof (realm_lookup h 9 _ Hrealm eq_refl) as H9.
  assert (3 ≤ length h) as Hlen.
  { apply prefix_length in Hrealm. simpl in Hrealm. lia. }
  assert (∀ predicate l,
            typeof h (VRef l) = "object" → Get h l predicate = VUndefined →
            throws (hasInstance predicate (VRef l) h)) as Hthrows.
  { intros predicate l Hty Hget.
    destruct (hasInstance_missing_throws predicate h l Hty Hget)
      as (t & h' & -> & Hinst).
    by exists t. }
  assert (typeof h (VRef o) = "object") as Htyo by (simpl; by rewrite Ho).
  assert (typeof h (VRef r) = "object") as Htyr by (simpl; by rewrite Hr).
  repeat split; apply Hthrows; try done;
    eapply lookup_chain_missing; done.
Qed.

(** On a [Result] exactly one of the hooks of [Ok] and [Err] returns
    [true], the other [false]; on an [Option] exactly one of the hooks of
    [Some] and [None]. *)
Theorem hooks_are_exclusive (h : heap) (r o : loc) (v w : value) :
  realm h → is_Result h r v → is_Option h o w →
  (∃ b, HasInstance.Ok (VRef r) h = (Normal (VBool b), h)
        ∧ HasInstance.Err (VRef r) h = (Normal (VBool (negb b)), h))
  ∧ (∃ b, HasInstance.Some (VRef o) h = (Normal (VBool b), h)
          ∧ HasInstance.None (VRef o) h = (Normal (VBool (negb b)), h)).
Proof.
  intros Hrealm Hr Ho.
  destruct (hasInstance_Result h r v Hrealm Hr) as [HOk HErr].
  destruct (hasInstance_Option h o w Hrealm Ho) as [HSome HNone].
  split.
  - exists (Result.isOk h r). split; [done|].
    rewrite HErr, isOk_not_isErr. by destruct (ToBoolean (Result.isErr h r)).
  - exists (Option.isSome h o). split; [done|].
    rewrite HNone. unfold Option.isSome, Option.isNone.
    by destruct (strict_eq (Option.val h o) none).
Qed.

End HookProperties.

(** The premises hold for [Ok(1)] and [Some(1)] in the realm. *)
Lemma hooks_throw_on_the_other_class_witness :
  ∃ t, (HasInstance.Ok (host := plain_host) (VRef 17) heap_with_containers).1
       = Abrupt (VRef t).
Proof.
  assert (realm heap_with_containers) as Hrealm by (eexists; reflexivity).
  destruct (hooks_throw_on_the_other_class (host := plain_host)
              heap_with_containers 16 17 (VNum 1) (VNum 1) Hrealm eq_refl eq_refl)
    as ((t & Ht & _) & _).
  exists t. exact Ht.
Defined.

(** The premises hold for [Ok(1)] and [Some(1)] in the realm. *)
Lemma hooks_are_exclusive_witness :
  ∃ b, HasInstance.Ok (host := plain_host) (VRef 16) heap_with_containers
       = (Normal (VBool b), heap_with_containers)
       ∧ HasInstance.Err (host := plain_host) (VRef 16) heap_with_containers
         = (Normal (VBool (negb b)), heap_with_containers).
Proof.
  assert (realm heap_with_containers) as Hrealm by (eexists; reflexivity).
  destruct (hooks_are_exclusive (host := plain_host)
              heap_with_containers 16 17 (VNum 1) (VNum 1) Hrealm eq_refl eq_refl)
    as [Hresult _].
  exact Hresult.
Defined.

(** ** [partition] on an array that holds something else *)

Lemma reduce_app {A B} (f : B → A → M B) (xs ys : list A) (acc : B) h :
  reduce f (xs ++ ys) acc h = (reduce f xs acc ≫= reduce f ys) h.
Proof.
  revert acc h. induction xs as [|x xs IH]; intros acc h; [done|].
  cbn [app reduce]. unfold mbind, M_bind.
  destruct (f acc x h) as [[acc'|e] h1]; [|done].
  apply IH.
Qed.

Section PartitionEdge.
Context {host : Host}.



(** Neither an [Option] nor a plain object has a property [isOk]. *)
Lemma Get_isOk_missing h o w :
  realm h →
  is_Option h o w ∨ h !! o = Some plain_object →
  Get h o "isOk" = VUndefined.
Proof.
  intros Hrealm Ho.
  pose proof (realm_lookup h 0 _ Hrealm eq_refl) as H0.
  pose proof (realm_lookup h 7 _ Hrealm eq_refl) as H7.
  assert (3 ≤ length h) as Hlen.
  { apply prefix_length in Hrealm. simpl in Hrealm. lia. }
  destruct Ho as [Ho | Ho].
  - eapply lookup_chain_missing; done.
  - unfold Get. destruct (length h) as [|[|n]]; [lia..|].
    unfold plain_object in Ho. simpl. rewrite Ho. simpl.
    change (h !! Realm.Object_prototype) with (h !! 0). by rewrite H0.
Qed.

(** [Result.partition] throws a [TypeError] when the array holds an object
    that is not a [Result], such as an [Option] or [{}]: the lookup of
    [isOk] on it finds nothing, and what is [undefined] cannot be called. *)
Theorem partition_throws_on_another_object
    (h : heap) (xs : list loc) (o : loc) (w : value) (ys : list value) :
  realm h →
  Forall (λ x, ∃ v, is_Result h x v) xs →
  is_Option h o w ∨ h !! o = Some plain_object →
  ∃ t h', Result.partition ((VRef <$> xs) ++ VRef o :: ys) h = (Abrupt (VRef t), h')
          ∧ instanceof h' (VRef t) Realm.TypeError_prototype = true.
Proof.
  intros Hrealm Hxs Ho. unfold Result.partition.
  rewrite reduce_app.
  rewrite (bind_normal _ _ _ _ _ (partition_from _ h xs Hrealm Hxs)).
  cbn [reduce].
  set (terr := Obj (Some Realm.TypeError_prototype) None
                 {[ "message" := VStr "is not a function" ]}).
  assert (Result.invoke (VRef o) "isOk" h = (Abrupt (VRef (length h)), h ++ [terr]))
    as Hinvoke.
  { unfold Result.invoke. rewrite bind_read.
    by rewrite (Get_isOk_missing h o w Hrealm Ho). }
  exists (length h), (h ++ [terr]). split.
  - rewrite bind_abrupt with (e := VRef (length h)) (h' := h ++ [terr]); [done|].
    by rewrite bind_abrupt with (e := VRef (length h)) (h' := h ++ [terr]).
  - eapply instanceof_direct; [apply lookup_alloc | done].
Qed.

(** ** Iteration *)

(** Iterating a container yields its content once exactly when the
    unchecked [unwrap()] would return it, and nothing when [unwrap()] would
    throw. *)
Theorem iteration_yields_what_unwrap_returns (h : heap) (this : loc) :
  (if Result.isOk h this
   then spread_Result h this = [Result.val h this]
        ∧ Result.unwrap this h = (Normal (Result.val h this), h)
   else spread_Result h this = [] ∧ raises (Result.unwrap this) h)
  ∧ (if Option.isSome h this
     then spread_Option h this = [Option.val h this]
          ∧ Option.unwrap this h = (Normal (Option.val h this), h)
     else spread_Option h this = [] ∧ raises (Option.unwrap this) h).
Proof.
  unfold spread_Result, spread_Option. split.
  - destruct (Result.isOk h this) eqn:Hok.
    + split; [done|]. apply unwrap_ok.
      rewrite isOk_not_isErr in Hok. by destruct (ToBoolean (Result.isErr h this)).
    + split; [done|]. apply Result_unchecked_raise; [exact EmptyString|].
      rewrite isOk_not_isErr in Hok. by destruct (ToBoolean (Result.isErr h this)).
  - destruct (Option.isSome h this) eqn:Hsome.
    + split; [done|]. unfold Option.unwrap. rewrite bind_read.
      unfold Option.isSome in Hsome. unfold Option.isNone.
      by destruct (strict_eq (Option.val h this) none).
    + split; [done|]. apply (Option_unchecked_raise h this EmptyString).
      unfold Option.isSome in Hsome. unfold Option.isNone.
      by destruct (strict_eq (Option.val h this) none).
Qed.

End PartitionEdge.

(** The premises hold for [[Ok(1), Some(1)]]. *)
Lemma partition_throws_on_another_object_witness :
  ∃ t h', Result.partition (host := plain_host) [VRef 18; VRef 19] heap_with_all
          = (Abrupt (VRef t), h').
Proof.
  assert (realm heap_with_all) as Hrealm by (by eexists).
  destruct (partition_throws_on_another_object (host := plain_host)
              heap_with_all [18] 19 (VNum 1) [] Hrealm)
    as (t & h' & Hrun & _).
  - repeat constructor. by exists (VNum 1).
  - left. reflexivity.
  - exists t, h'. exact Hrun.
Defined.


(** ** [map] and composition *)

Lemma Result_map_pure h this f :
  Result.map this (pure f) h
  = if Result.isOk h this then Factory.Ok (f (Result.val h this)) h
    else (Normal (VRef this), h).
Proof. unfold Result.map. rewrite bind_read. by destruct (Result.isOk h this). Qed.

Lemma Option_map_pure h this f :
  Option.map this (pure f) h
  = if Option.isSome h this then Factory.Some (f (Option.val h this)) h
    else (Normal (VRef this), h).
Proof. unfold Option.map. rewrite bind_read. by destruct (Option.isSome h this). Qed.

(** [x.map(f).map(g)] on a [Result] returns a container with the content
    and the classification of the one [x.map(v => g(f(v)))] returns, for
    functions without effects, provided [f] does not return an error-like
    value: after such a value the second [map] is skipped. *)
Theorem map_composes_unless_reclassified
    (h : heap) (this : loc) (f g : value → value) :
  closed h →
  valid h (f (Result.val h this)) → valid h (g (f (Result.val h this))) →
  error_like h (f (Result.val h this)) = false →
  ∃ r r' h1 h2,
    map_twice_Result this (pure f) (pure g) h = (Normal (VRef r), h1)
    ∧ Result.map this (pure (g ∘ f)) h = (Normal (VRef r'), h2)
    ∧ Result.val h1 r = Result.val h2 r'
    ∧ Result.isOk h1 r = Result.isOk h2 r'.
Proof.
  intros Hclosed Hvf Hvg Hf.
  unfold map_twice_Result.
  pose proof (Result_map_pure h this f) as Hfirst.
  pose proof (Result_map_pure h this (g ∘ f)) as Hboth.
  destruct (Result.isOk h this) eqn:Hok.
  - set (h1 := h ++ [Obj (Some Realm.Result_prototype) None
                       {[ "val" := f (Result.val h this) ]}]).
    change (Factory.Ok (f (Result.val h this)) h)
      with (Normal (VRef (length h)) : completion value, h1) in Hfirst.
    rewrite (bind_normal _ _ _ _ _ Hfirst). cbn [dot].
    rewrite Result_map_pure, Hboth. unfold compose.
    assert (Result.isOk h1 (length h) = true) as ->.
    { unfold h1. rewrite isOk_not_isErr, isErr_alloc, error_like_stable by done.
      by rewrite Hf. }
    assert (Result.val h1 (length h) = f (Result.val h this)) as ->
      by (unfold Result.val, h1; by rewrite Get_val_alloc).
    eexists _, _, _, _. split; [reflexivity|]. split; [reflexivity|].
    split.
    + unfold Result.val. by rewrite !Get_val_alloc.
    + rewrite !isOk_alloc. unfold h1. rewrite <- !app_assoc.
      by rewrite !error_like_stable.
  - rewrite (bind_normal _ _ _ _ _ Hfirst). cbn [dot].
    rewrite Result_map_pure, Hok, Hboth.
    by eexists _, _, _, _.
Qed.

(** The same on an [Option], provided [f] does not return the absence
    marker. *)
Theorem Option_map_composes_unless_absent
    (h : heap) (this : loc) (f g : value → value) :
  f (Option.val h this) ≠ none →
  ∃ o o' h1 h2,
    map_twice_Option this (pure f) (pure g) h = (Normal (VRef o), h1)
    ∧ Option.map this (pure (g ∘ f)) h = (Normal (VRef o'), h2)
    ∧ Option.val h1 o = Option.val h2 o'
    ∧ Option.isSome h1 o = Option.isSome h2 o'.
Proof.
  intros Hfo.
  unfold map_twice_Option.
  pose proof (Option_map_pure h this f) as Hfirst.
  pose proof (Option_map_pure h this (g ∘ f)) as Hboth.
  destruct (Option.isSome h this) eqn:Hsome.
  - set (h1 := h ++ [Obj (Some Realm.Option_prototype) None
                       {[ "val" := f (Option.val h this) ]}]).
    change (Factory.Some (f (Option.val h this)) h)
      with (Normal (VRef (length h)) : completion value, h1) in Hfirst.
    rewrite (bind_normal _ _ _ _ _ Hfirst). cbn [dot].
    rewrite Option_map_pure, Hboth. unfold compose. unfold h1 at 1.
    rewrite isSome_alloc, bool_decide_eq_false_2 by done.
    simpl negb. cbv iota.
    assert (Option.val h1 (length h) = f (Option.val h this)) as ->
      by (unfold Option.val, h1; by rewrite Get_val_alloc).
    eexists _, _, _, _. split; [reflexivity|]. split; [reflexivity|].
    split.
    + unfold Option.val. by rewrite !Get_val_alloc.
    + by rewrite !isSome_alloc.
  - rewrite (bind_normal _ _ _ _ _ Hfirst). cbn [dot].
    rewrite Option_map_pure, Hsome, Hboth.
    by eexists _, _, _, _.
Qed.

(** The premises hold for [Ok(1)] with two constant functions. *)
Lemma map_composes_unless_reclassified_witness :
  ∃ r r' h1 h2,
    map_twice_Result 18 (pure (λ _, VNum 2)) (pure (λ _, VNum 3)) heap_with_all
    = (Normal (VRef r), h1)
    ∧ Result.map 18 (pure ((λ _, VNum 3) ∘ (λ _, VNum 2))) heap_with_all
      = (Normal (VRef r'), h2)
    ∧ Result.val h1 r = Result.val h2 r'
    ∧ Result.isOk h1 r = Result.isOk h2 r'.
Proof.
  apply (map_composes_unless_reclassified heap_with_all 18
           (λ _, VNum 2) (λ _, VNum 3)).
  - apply closedb_closed. vm_compute. reflexivity.
  - exact I.
  - exact I.
  - reflexivity.
Defined.

(** The premise holds for [Some(1)] with two constant functions. *)
Lemma Option_map_composes_unless_absent_witness :
  ∃ o o' h1 h2,
    map_twice_Option 19 (pure (λ _, VNum 2)) (pure (λ _, VNum 3)) heap_with_all
    = (Normal (VRef o), h1)
    ∧ Option.map 19 (pure ((λ _, VNum 3) ∘ (λ _, VNum 2))) heap_with_all
      = (Normal (VRef o'), h2)
    ∧ Option.val h1 o = Option.val h2 o'
    ∧ Option.isSome h1 o = Option.isSome h2 o'.
Proof.
  apply (Option_map_composes_unless_absent heap_with_all 19
           (λ _, VNum 2) (λ _, VNum 3)).
  discriminate.
Defined.
